(** * twist_mux: the arbitration engine of [src/twist_mux.cpp]

    A shallow embedding of the [TwistMux] node: the velocity and lock topic
    handles it owns, the effective lock priority ([getLockPriority]), the
    arbitration query ([hasPriority]), the output adapter ([publishTwist]),
    the start-up code ([init]) and the free function
    [hasIncreasedAbsVelocity].

    Conventions.
    - [double] is IEEE binary64, i.e. Rocq's primitive [float].
    - [int] priorities are [Z]; the code never does arithmetic on them, so no
      wrap-around is involved.
    - A time point ([rclcpp::Time], [builtin_interfaces::msg::Time]) and a
      duration are a number of nanoseconds in [Z].
    - Node methods run in a small state-and-trace monad [M]: they read and
      write the node's members and emit what the node publishes or logs. *)

From Stdlib Require Import ZArith List String Bool Lia Floats Permutation.
Import ListNotations.

Local Open Scope string_scope.
Local Open Scope Z_scope.
Local Open Scope list_scope.

(** ** Messages *)

Definition Time : Type := Z.
Definition Duration : Type := Z.

Module Vector3.
Record t : Type := mk { x : float; y : float; z : float }.
Definition zero : t := mk 0%float 0%float 0%float.
End Vector3.

Module Twist.
Record t : Type := mk { linear : Vector3.t; angular : Vector3.t }.
Definition zero : t := mk Vector3.zero Vector3.zero.
End Twist.

Module Header.
Record t : Type := mk { stamp : Time; frame_id : string }.
(** A default-constructed [std_msgs::msg::Header]. *)
Definition default : t := mk 0 "".
End Header.

Module TwistStamped.
Record t : Type := mk { header : Header.t; twist : Twist.t }.
(** A default-constructed [geometry_msgs::msg::TwistStamped]. *)
Definition default : t := mk Header.default Twist.zero.
Definition set_twist (m : t) (v : Twist.t) : t := mk (header m) v.
End TwistStamped.

(** ** hasIncreasedAbsVelocity (twist_mux.cpp, lines 53-64) *)

Definition hasIncreasedAbsVelocity (old_twist new_twist : Twist.t) : bool :=
  let old_linear_x := PrimFloat.abs (Vector3.x (Twist.linear old_twist)) in
  let new_linear_x := PrimFloat.abs (Vector3.x (Twist.linear new_twist)) in
  let old_angular_z := PrimFloat.abs (Vector3.z (Twist.angular old_twist)) in
  let new_angular_z := PrimFloat.abs (Vector3.z (Twist.angular new_twist)) in
  PrimFloat.ltb old_linear_x new_linear_x
  || PrimFloat.ltb old_angular_z new_angular_z.

(** ** Topic handles

    [twist_mux/topic_handle.hpp] is not part of the sources at hand; only its
    uses in [twist_mux.cpp] are ([getName], [getPriority], [isLocked],
    [isMasked], and the constructor arguments in [getTopicHandles]). *)

(** [LockTopicHandle::priority_type], which [getLockPriority] returns as
    [int]. *)
Abbreviation priority_type := Z (only parsing).

(** Modelled from the spec: the common part of a handle (the header's
    [TopicHandle_<T>]): "name, numeric priority, a timeout duration" and the
    mutable "last received value, timestamp of last reception"; [stamp_] is
    [None] until the first reception. *)
Record TopicHandle_ (T : Type) : Type := mkTopicHandle {
  name_ : string;
  topic_ : string;
  timeout_ : Duration;
  priority_ : priority_type;
  stamp_ : option Time;
  msg_ : T
}.

Arguments mkTopicHandle {T}.
Arguments name_ {T}.
Arguments topic_ {T}.
Arguments timeout_ {T}.
Arguments priority_ {T}.
Arguments stamp_ {T}.
Arguments msg_ {T}.

(** Modelled from the spec: the staleness test of the missing header: "stale
    - time-since-last-reception >= its timeout, or it has never received
    data". *)
Definition hasExpired {T} (now : Time) (h : TopicHandle_ T) : bool :=
  match stamp_ h with
  | None => true
  | Some t => timeout_ h <=? now - t
  end.

(** Modelled from the spec: [update(value, now)] of the missing header:
    "records value and timestamp". *)
Definition update {T} (h : TopicHandle_ T) (value : T) (t : Time)
  : TopicHandle_ T :=
  mkTopicHandle (name_ h) (topic_ h) (timeout_ h) (priority_ h) (Some t) value.

Definition LockTopicHandle : Type := TopicHandle_ bool.

(** Modelled from the spec: [LockTopicHandle::isLocked] of the missing
    header: "locked = assertion is true AND time-since-reception < timeout.
    A lock that has never been received is not locked." *)
Definition isLocked (now : Time) (lock_h : LockTopicHandle) : bool :=
  msg_ lock_h && negb (hasExpired now lock_h).

(** The two alternatives of [velocity_handle_variant], as built in
    [getTopicHandles] (lines 186-193). *)
Inductive velocity_handle_variant : Type :=
| TwistHandle (h : TopicHandle_ Twist.t)
| TwistStampedHandle (h : TopicHandle_ TwistStamped.t).

(** What [std::visit] reaches through the variant. *)
Definition getName (v : velocity_handle_variant) : string :=
  match v with
  | TwistHandle h => name_ h
  | TwistStampedHandle h => name_ h
  end.

Definition getPriority (v : velocity_handle_variant) : priority_type :=
  match v with
  | TwistHandle h => priority_ h
  | TwistStampedHandle h => priority_ h
  end.

Definition isStale (now : Time) (v : velocity_handle_variant) : bool :=
  match v with
  | TwistHandle h => hasExpired now h
  | TwistStampedHandle h => hasExpired now h
  end.

(** Modelled from the spec: the lock term of the masking rule, "Precise rule:
    masked_by_lock = (velocity_priority < effective_lock_priority)". *)
Definition masked_by_lock (v : velocity_handle_variant)
    (lock_priority : priority_type) : bool :=
  getPriority v <? lock_priority.

(** Modelled from the spec: [VelocityTopicHandle::isMasked] of the missing
    header: "masked if (a) stale ... OR (b)" masked by lock. *)
Definition isMasked (now : Time) (v : velocity_handle_variant)
    (lock_priority : priority_type) : bool :=
  isStale now v || masked_by_lock v lock_priority.

(** ** The node

    [cmd_pub_] is a [std::variant] over the two publisher types; until
    [init] assigns it, it holds a null pointer, which no
    [dynamic_pointer_cast] accepts. *)
Inductive publisher_variant : Type :=
| NoPublisher
| TwistPublisher
| TwistStampedPublisher.

Inductive ParameterValue : Type :=
| PString (s : string)
| PDouble (d : float)
| PInt (i : Z)
| PBool (b : bool).

(** The node's parameters as [rclcpp] serves them: the prefixes that
    [list_parameters] finds under a name, and the value of a parameter that
    is set. *)
Record NodeParameters : Type := mkNodeParameters {
  list_prefixes : string -> list string;
  get_parameter : string -> option ParameterValue
}.

Record TwistMux : Type := mkTwistMux {
  parameters : NodeParameters;
  clock : Time;                               (* what [now()] reads *)
  velocity_hs_ : list velocity_handle_variant;
  lock_hs_ : list LockTopicHandle;
  output_stamped : bool;
  cmd_pub_ : publisher_variant;
  status_priority : option priority_type      (* [status_->priority] *)
}.

(** The node the constructor leaves (lines 71-76): [output_stamped(false)],
    everything else empty. *)
Definition TwistMux_new (p : NodeParameters) (t : Time) : TwistMux :=
  mkTwistMux p t [] [] false NoPublisher None.

Definition set_velocity_hs (mux : TwistMux) (l : list velocity_handle_variant)
  : TwistMux :=
  mkTwistMux (parameters mux) (clock mux) l (lock_hs_ mux)
             (output_stamped mux) (cmd_pub_ mux) (status_priority mux).

Definition set_lock_hs (mux : TwistMux) (l : list LockTopicHandle) : TwistMux :=
  mkTwistMux (parameters mux) (clock mux) (velocity_hs_ mux) l
             (output_stamped mux) (cmd_pub_ mux) (status_priority mux).

Definition set_output_stamped (mux : TwistMux) (b : bool) : TwistMux :=
  mkTwistMux (parameters mux) (clock mux) (velocity_hs_ mux) (lock_hs_ mux)
             b (cmd_pub_ mux) (status_priority mux).

Definition set_cmd_pub (mux : TwistMux) (p : publisher_variant) : TwistMux :=
  mkTwistMux (parameters mux) (clock mux) (velocity_hs_ mux) (lock_hs_ mux)
             (output_stamped mux) p (status_priority mux).

Definition set_status_priority (mux : TwistMux) (p : option priority_type)
  : TwistMux :=
  mkTwistMux (parameters mux) (clock mux) (velocity_hs_ mux) (lock_hs_ mux)
             (output_stamped mux) (cmd_pub_ mux) p.

Definition set_clock (mux : TwistMux) (t : Time) : TwistMux :=
  mkTwistMux (parameters mux) t (velocity_hs_ mux) (lock_hs_ mux)
             (output_stamped mux) (cmd_pub_ mux) (status_priority mux).

(** ** What the node emits *)

Inductive OutMessage : Type :=
| OutTwist (m : Twist.t)
| OutTwistStamped (m : TwistStamped.t).

Inductive severity : Type := DEBUG | FATAL.

Inductive log_arg : Type :=
| ArgString (s : string)
| ArgInt (i : Z)
| ArgDouble (d : float).

Inductive event : Type :=
| Published (m : OutMessage)                                (* on cmd_vel_out *)
| Logged (lvl : severity) (fmt : string) (args : list log_arg).

Inductive exception : Type :=
| ParamsHelperException (what : string)
| ParameterTypeException (param : string)
| UnknownName (name : string)
| RepresentationMismatch (name : string).

Inductive result (A : Type) : Type :=
| Ok (a : A)
| Throw (e : exception).

Arguments Ok {A}.
Arguments Throw {A}.

(** ** The monad of node methods: state, trace of events, exceptions *)

Definition M (A : Type) : Type := TwistMux -> result A * TwistMux * list event.

Definition ret {A} (a : A) : M A := fun mux => (Ok a, mux, []).

Definition bind {A B} (c : M A) (k : A -> M B) : M B :=
  fun mux =>
    match c mux with
    | (Ok a, mux1, tr1) =>
        match k a mux1 with
        | (r, mux2, tr2) => (r, mux2, tr1 ++ tr2)
        end
    | (Throw e, mux1, tr1) => (Throw e, mux1, tr1)
    end.

Definition this : M TwistMux := fun mux => (Ok mux, mux, []).

Definition modify (f : TwistMux -> TwistMux) : M unit :=
  fun mux => (Ok tt, f mux, []).

Definition emit (e : event) : M unit := fun mux => (Ok tt, mux, [e]).

Definition throw {A} (e : exception) : M A := fun mux => (Throw e, mux, []).

(** [try c catch (ParamsHelperException) handler]: other exceptions pass. *)
Definition try_catch_params {A} (c : M A) (handler : string -> M A) : M A :=
  fun mux =>
    match c mux with
    | (Throw (ParamsHelperException what), mux1, tr1) =>
        match handler what mux1 with
        | (r, mux2, tr2) => (r, mux2, tr1 ++ tr2)
        end
    | other => other
    end.

Declare Scope mux_scope.
Delimit Scope mux_scope with mux.
Notation "x <- c ;; k" := (bind c (fun x => k))
  (at level 61, c at next level, right associativity) : mux_scope.
Notation "c ;;; k" := (bind c (fun _ => k))
  (at level 61, right associativity) : mux_scope.

Definition RCLCPP_DEBUG (fmt : string) (args : list log_arg) : M unit :=
  emit (Logged DEBUG fmt args).

Definition RCLCPP_FATAL (fmt : string) (args : list log_arg) : M unit :=
  emit (Logged FATAL fmt args).

(** Runs a loop body over a container, in order. *)
Fixpoint for_each {A} (l : list A) (body : A -> M unit) : M unit :=
  match l with
  | [] => ret tt
  | a :: l' => bind (body a) (fun _ => for_each l' body)
  end.

(** ** getLockPriority (lines 204-222)

    The loop only writes the local [priority]; its body is one step of a
    left fold over [*lock_hs_]. *)
Definition lock_priority_step (now : Time) (priority : priority_type)
    (lock_h : LockTopicHandle) : priority_type :=
  if isLocked now lock_h then
    let tmp := priority_ lock_h in
    if priority <? tmp then tmp else priority
  else priority.

Definition getLockPriority : M priority_type :=
  (mux <- this;;
   let priority :=
     fold_left (lock_priority_step (clock mux)) (lock_hs_ mux) 0 in
   RCLCPP_DEBUG "Priority = %d." [ArgInt priority];;;
   ret priority)%mux.

(** ** hasPriority (lines 224-247)

    The locals [priority] and [velocity_name] are the accumulator of the
    fold over [*velocity_hs_]. *)
Definition has_priority_step (now : Time) (lock_priority : priority_type)
    (acc : priority_type * string) (velocity_h : velocity_handle_variant)
  : priority_type * string :=
  let '(priority, velocity_name) := acc in
  if negb (isMasked now velocity_h lock_priority) then
    let velocity_priority := getPriority velocity_h in
    if priority <? velocity_priority
    then (velocity_priority, getName velocity_h)
    else (priority, velocity_name)
  else (priority, velocity_name).

Definition hasPriority (twist : velocity_handle_variant) : M bool :=
  (lock_priority <- getLockPriority;;
   mux <- this;;
   let '(priority, velocity_name) :=
     fold_left (has_priority_step (clock mux) lock_priority)
               (velocity_hs_ mux) (0, "NULL") in
   ret (getName twist =? velocity_name)%string)%mux.

(** ** publishTwist (lines 116-156)

    The template parameter is one of the two message types; [std::visit]
    hands over the publisher held by [cmd_pub_], and each
    [dynamic_pointer_cast] succeeds only on a publisher of its own type. *)
Inductive Message : Type :=
| TwistMsg (m : Twist.t)
| TwistStampedMsg (m : TwistStamped.t).

Definition publishTwist (msg : Message) : M unit :=
  (mux <- this;;
   if output_stamped mux then
     match cmd_pub_ mux with
     | TwistStampedPublisher =>
         match msg with
         | TwistStampedMsg m => emit (Published (OutTwistStamped m))
         | TwistMsg m =>
             let twist_stamped_msg :=
               TwistStamped.set_twist TwistStamped.default m in
             emit (Published (OutTwistStamped twist_stamped_msg))
         end
     | _ =>
         RCLCPP_FATAL
           "Expected TwistStamped publisher, but received different type." []
     end
   else
     match cmd_pub_ mux with
     | TwistPublisher =>
         match msg with
         | TwistStampedMsg m => emit (Published (OutTwist (TwistStamped.twist m)))
         | TwistMsg m => emit (Published (OutTwist m))
         end
     | _ =>
         RCLCPP_FATAL
           "Expected Twist publisher, but received different type." []
     end)%mux.

(** ** updateDiagnostics (lines 110-114)

    The status object shares the handle containers with the node (lines
    101-102), so only its [priority] is a member of its own; handing the
    status to the diagnostics updater is outside this file.  A status
    object whose priority was never written is [None]. *)
Definition updateDiagnostics : M unit :=
  (p <- getLockPriority;;
   modify (fun mux => set_status_priority mux (Some p)))%mux.

(** ** getTopicHandles (lines 159-202) and init (lines 78-108) *)

Definition to_int (i : Z) : Z := (i + 2 ^ 31) mod 2 ^ 32 - 2 ^ 31.

Definition as_string (v : ParameterValue) : option string :=
  match v with PString s => Some s | _ => None end.
Definition as_double (v : ParameterValue) : option float :=
  match v with PDouble d => Some d | _ => None end.
Definition as_int (v : ParameterValue) : option Z :=
  match v with PInt i => Some (to_int i) | _ => None end.
Definition as_bool (v : ParameterValue) : option bool :=
  match v with PBool b => Some b | _ => None end.

(** Modelled from the spec: [fetch_param] of the missing
    [params_helpers.hpp]: a required field that is unknown or malformed is a
    configuration error, "fatal at startup". *)
Definition fetch_param {T} (as_T : ParameterValue -> option T)
    (param_name : string) : M T :=
  (mux <- this;;
   match get_parameter (parameters mux) param_name with
   | None =>
       throw (ParamsHelperException
                ("could not load parameter '" ++ param_name ++ "'")%string)
   | Some v =>
       match as_T v with
       | Some a => ret a
       | None => throw (ParameterTypeException param_name)
       end
   end)%mux.

(** Seconds in a [double] to whole nanoseconds, truncating; 0 for what is
    not a finite number. *)
Definition duration_from_seconds (timeout : float) : Duration :=
  match Prim2SF (timeout * 1000000000)%float with
  | S754_finite s m e =>
      let n := Z.shiftl (Z.pos m) e in if s then - n else n
  | _ => 0
  end.

(** Modelled from the spec: the constructor of a handle in the missing
    header, "created once at configuration time": nothing received yet. *)
Definition TopicHandle_new {T} (name topic : string) (timeout : float)
    (priority : priority_type) (initial : T) : TopicHandle_ T :=
  mkTopicHandle name topic (duration_from_seconds timeout) priority None initial.

Inductive handle_kind : Type := velocity_handles | lock_handles.

Definition emplace_back (T : handle_kind) (prefix topic : string)
    (timeout : float) (priority : priority_type) (stamped_topic : bool)
  : M unit :=
  match T with
  | velocity_handles =>
      if stamped_topic then
        modify (fun mux =>
          set_velocity_hs mux
            (velocity_hs_ mux ++
             [TwistStampedHandle
                (TopicHandle_new prefix topic timeout priority
                                 TwistStamped.default)]))
      else
        modify (fun mux =>
          set_velocity_hs mux
            (velocity_hs_ mux ++
             [TwistHandle
                (TopicHandle_new prefix topic timeout priority Twist.zero)]))
  | lock_handles =>
      modify (fun mux =>
        set_lock_hs mux
          (lock_hs_ mux ++
           [TopicHandle_new prefix topic timeout priority false]))
  end.

Definition getTopicHandles (T : handle_kind) (param_name : string) : M unit :=
  (RCLCPP_DEBUG "getTopicHandles: %s" [ArgString param_name];;;
   mux <- this;;
   let list := list_prefixes (parameters mux) param_name in
   try_catch_params
     (for_each list (fun prefix =>
        RCLCPP_DEBUG "Prefix: %s" [ArgString prefix];;;
        topic <- fetch_param as_string (prefix ++ ".topic")%string;;
        timeout <- fetch_param as_double (prefix ++ ".timeout")%string;;
        priority <- fetch_param as_int (prefix ++ ".priority")%string;;
        stamped_topic <-
          fetch_param as_bool (prefix ++ ".stamped_topic")%string;;
        RCLCPP_DEBUG "Retrieved topic: %s" [ArgString topic];;;
        RCLCPP_DEBUG "Listed prefix: %.2f" [ArgDouble timeout];;;
        RCLCPP_DEBUG "Listed prefix: %d" [ArgInt priority];;;
        emplace_back T prefix topic timeout priority stamped_topic))
     (fun what =>
        RCLCPP_FATAL "Error parsing params '%s':\n\t%s"
                     [ArgString param_name; ArgString what];;;
        throw (ParamsHelperException what)))%mux.

(** [declare_parameter("output_stamped", false)] followed by
    [get_parameter("output_stamped").as_bool()]: the default when the
    parameter is not set. *)
Definition get_output_stamped : M bool :=
  (mux <- this;;
   match get_parameter (parameters mux) "output_stamped" with
   | None => ret false
   | Some (PBool b) => ret b
   | Some _ => throw (ParameterTypeException "output_stamped")
   end)%mux.

Definition init : M unit :=
  (modify (fun mux => set_velocity_hs mux []);;;
   modify (fun mux => set_lock_hs mux []);;;
   getTopicHandles velocity_handles "topics";;;
   getTopicHandles lock_handles "locks";;;
   b <- get_output_stamped;;
   modify (fun mux => set_output_stamped mux b);;;
   (if b
    then modify (fun mux => set_cmd_pub mux TwistStampedPublisher)
    else modify (fun mux => set_cmd_pub mux TwistPublisher));;;
   modify (fun mux => set_status_priority mux None))%mux.

(** ** Reception events

    The subscription callbacks live in the missing [topic_handle.hpp]. *)

(** Modelled from the spec: [update(value, now)] on the handle named
    [sourceName], the first in registration order; the stamped variant keeps
    the "intrinsic timestamp", the bare one the "reception-time timestamp".
    [None] when no handle has that name, [Some (inr _)] when the value's
    representation is not the handle's. *)
Fixpoint update_velocity (sourceName : string) (value : Message) (now : Time)
    (hs : list velocity_handle_variant)
  : option (list velocity_handle_variant * velocity_handle_variant + unit) :=
  match hs with
  | [] => None
  | v :: hs' =>
      if (getName v =? sourceName)%string then
        match v, value with
        | TwistHandle h, TwistMsg m =>
            let v' := TwistHandle (update h m now) in
            Some (inl (v' :: hs', v'))
        | TwistStampedHandle h, TwistStampedMsg m =>
            let v' :=
              TwistStampedHandle
                (update h m (Header.stamp (TwistStamped.header m))) in
            Some (inl (v' :: hs', v'))
        | _, _ => Some (inr tt)
        end
      else
        match update_velocity sourceName value now hs' with
        | Some (inl (hs'', v')) => Some (inl (v :: hs'', v'))
        | other => other
        end
  end.

Fixpoint update_lock (lockName : string) (asserted : bool) (now : Time)
    (hs : list LockTopicHandle) : option (list LockTopicHandle) :=
  match hs with
  | [] => None
  | h :: hs' =>
      if (name_ h =? lockName)%string then Some (update h asserted now :: hs')
      else option_map (cons h) (update_lock lockName asserted now hs')
  end.

(** Modelled from the spec: the arbitration a reception ends with: the
    command is forwarded "if and only if the just-updated source is the
    current winner", and otherwise "silently dropped". *)
Definition arbitrate (twist : velocity_handle_variant) (value : Message)
  : M unit :=
  (forward <- hasPriority twist;;
   if forward then publishTwist value else ret tt)%mux.

(** Modelled from the spec: [onVelocityReceived]: "updates the matching
    handle, recomputes effective lock priority, evaluates hasPriority for
    that source: returns a forwardable command if and only if the
    just-updated source is the current winner"; "receiving an update for an
    unregistered name is an error reported to the caller". *)
Definition onVelocityReceived (sourceName : string) (value : Message) : M unit :=
  (mux <- this;;
   match update_velocity sourceName value (clock mux) (velocity_hs_ mux) with
   | None => throw (UnknownName sourceName)
   | Some (inr _) => throw (RepresentationMismatch sourceName)
   | Some (inl (hs, twist)) =>
       modify (fun mux => set_velocity_hs mux hs);;;
       arbitrate twist value
   end)%mux.

(** Modelled from the spec: [onLockReceived]: "updates the matching handle
    only; produces no output". *)
Definition onLockReceived (lockName : string) (asserted : bool) : M unit :=
  (mux <- this;;
   match update_lock lockName asserted (clock mux) (lock_hs_ mux) with
   | None => throw (UnknownName lockName)
   | Some hs => modify (fun mux => set_lock_hs mux hs)
   end)%mux.

(** ** Runs of the node: start-up, then the clock advancing, receptions and
    the diagnostics timer, in any order. *)
Inductive step : TwistMux -> TwistMux -> Prop :=
| step_clock : forall mux t,
    clock mux <= t -> step mux (set_clock mux t)
| step_velocity : forall mux sourceName value r mux' tr,
    onVelocityReceived sourceName value mux = (r, mux', tr) -> step mux mux'
| step_lock : forall mux lockName asserted r mux' tr,
    onLockReceived lockName asserted mux = (r, mux', tr) -> step mux mux'
| step_diagnostics : forall mux r mux' tr,
    updateDiagnostics mux = (r, mux', tr) -> step mux mux'.

Inductive running : TwistMux -> Prop :=
| running_init : forall p t mux tr,
    init (TwistMux_new p t) = (Ok tt, mux, tr) -> running mux
| running_step : forall mux mux',
    running mux -> step mux mux' -> running mux'.

(** ** Reading a result *)

Definition value_of {A} (r : result A * TwistMux * list event) : result A :=
  fst (fst r).
Definition state_of {A} (r : result A * TwistMux * list event) : TwistMux :=
  snd (fst r).
Definition trace_of {A} (r : result A * TwistMux * list event) : list event :=
  snd r.

Definition is_fatal (e : event) : bool :=
  match e with Logged FATAL _ _ => true | _ => false end.

(** The messages a trace puts on the output topic, in order. *)
Fixpoint published (tr : list event) : list OutMessage :=
  match tr with
  | [] => []
  | Published m :: tr' => m :: published tr'
  | Logged _ _ _ :: tr' => published tr'
  end.

(** ** Specification vocabulary *)

(** The publisher that [init] creates for the configured output mode. *)
Definition publisher_matches (mux : TwistMux) : Prop :=
  cmd_pub_ mux =
  if output_stamped mux then TwistStampedPublisher else TwistPublisher.

(** The four conversions of the output adapter. *)
Definition adapt (stamped : bool) (msg : Message) : OutMessage :=
  match stamped, msg with
  | true, TwistStampedMsg m => OutTwistStamped m
  | true, TwistMsg m => OutTwistStamped (TwistStamped.mk Header.default m)
  | false, TwistStampedMsg m => OutTwist (TwistStamped.twist m)
  | false, TwistMsg m => OutTwist m
  end.

(** [s], registered after [pre] and before [post], is unmasked, beats every
    unmasked source registered before it and is not beaten by any
    registered after it. *)
Definition first_max_unmasked (now : Time) (lock_priority : priority_type)
    (pre : list velocity_handle_variant) (s : velocity_handle_variant)
    (post : list velocity_handle_variant) : Prop :=
  isMasked now s lock_priority = false /\
  (forall u, In u pre -> isMasked now u lock_priority = false ->
             getPriority u < getPriority s) /\
  (forall u, In u post -> isMasked now u lock_priority = false ->
             getPriority u <= getPriority s).

(** The winner in the words "unmasked and of strictly greatest priority
    among all unmasked sources". *)
Definition strictly_greatest_unmasked (now : Time)
    (lock_priority : priority_type) (hs : list velocity_handle_variant)
    (s : velocity_handle_variant) : Prop :=
  isMasked now s lock_priority = false /\
  (forall u, In u hs -> u <> s -> isMasked now u lock_priority = false ->
             getPriority u < getPriority s).

(** The outbound record in the words of C5: payload equal to the command
    and timestamp equal to the time of the call. *)
Definition stamped_with_current_time (mux : TwistMux) (m : Twist.t) : Prop :=
  exists out,
    published (trace_of (publishTwist (TwistMsg m) mux)) = [OutTwistStamped out] /\
    TwistStamped.twist out = m /\
    Header.stamp (TwistStamped.header out) = clock mux.

(** |old| < |new| on the IEEE 754 values that two [double]s stand for. *)
Definition abs_exceeds (old new : float) : Prop :=
  SFltb (SFabs (Prim2SF old)) (SFabs (Prim2SF new)) = true.

Definition same_output (mux mux' : TwistMux) : Prop :=
  output_stamped mux' = output_stamped mux /\ cmd_pub_ mux' = cmd_pub_ mux.

(** ** What a call returns, leaves and emits, read off the code *)

Definition lock_priority_of (mux : TwistMux) : priority_type :=
  fold_left (lock_priority_step (clock mux)) (lock_hs_ mux) 0.

Definition arbitration_of (mux : TwistMux) : priority_type * string :=
  fold_left (has_priority_step (clock mux) (lock_priority_of mux))
            (velocity_hs_ mux) (0, "NULL").

Definition priority_log (p : priority_type) : event :=
  Logged DEBUG "Priority = %d." [ArgInt p].

(** ** Sample configurations *)

Definition twist_of (linear_x angular_z : float) : Twist.t :=
  Twist.mk (Vector3.mk linear_x 0 0) (Vector3.mk 0 0 angular_z).

Definition velocity_source (name : string) (timeout : Duration)
    (priority : priority_type) (stamp : option Time) : velocity_handle_variant :=
  TwistHandle (mkTopicHandle name name timeout priority stamp Twist.zero).

Definition lock_source (name : string) (timeout : Duration)
    (priority : priority_type) (stamp : option Time) (asserted : bool)
  : LockTopicHandle :=
  mkTopicHandle name name timeout priority stamp asserted.

Definition no_parameters : NodeParameters :=
  mkNodeParameters (fun _ => []) (fun _ => None).

Definition second : Duration := 1000000000.

(** Two fresh sources of equal priority 5, no lock, bare output. *)
Definition tie_mux : TwistMux :=
  mkTwistMux no_parameters (3 * second / 2)
    [velocity_source "topics.a" second 5 (Some second);
     velocity_source "topics.b" second 5 (Some second)]
    [] false TwistPublisher None.

(** Two fresh sources of equal priority 0, no lock. *)
Definition zero_mux : TwistMux :=
  mkTwistMux no_parameters (2 * second)
    [velocity_source "topics.a" second 0 (Some (2 * second));
     velocity_source "topics.b" second 0 (Some (2 * second))]
    [] false TwistPublisher None.

(** In the style of scenario B, at t = 1 s: the e-stop lock (priority 10)
    is asserted and fresh, a second lock (priority 3) has timed out. *)
Definition locked_mux : TwistMux :=
  mkTwistMux no_parameters second
    [velocity_source "topics.drive" second 1 (Some second);
     velocity_source "topics.teleop" second 10 (Some second)]
    [lock_source "locks.estop" (2 * second) 10 (Some 0) true;
     lock_source "locks.pause" (second / 2) 3 (Some 0) true]
    true TwistStampedPublisher None.

(** A node at t = 5 s whose output is time-stamped. *)
Definition stamped_mux : TwistMux :=
  mkTwistMux no_parameters (5 * second)
    [velocity_source "topics.drive" second 1 (Some (5 * second))]
    [] true TwistStampedPublisher None.

Fixpoint parameter_of (name : string) (l : list (string * ParameterValue))
  : option ParameterValue :=
  match l with
  | [] => None
  | (name', v) :: l' =>
      if (name =? name')%string then Some v else parameter_of name l'
  end.

(** A configuration in the style of the package's: a bare source, a stamped
    source of higher priority, an e-stop lock above both, stamped output. *)
Definition scenario_parameters : NodeParameters :=
  mkNodeParameters
    (fun name =>
       if (name =? "topics")%string then ["topics.drive"; "topics.teleop"]
       else if (name =? "locks")%string then ["locks.estop"]
       else [])
    (fun name =>
       parameter_of name
         [("topics.drive.topic", PString "drive_vel");
          ("topics.drive.timeout", PDouble 1);
          ("topics.drive.priority", PInt 1);
          ("topics.drive.stamped_topic", PBool false);
          ("topics.teleop.topic", PString "teleop_vel");
          ("topics.teleop.timeout", PDouble 0.5);
          ("topics.teleop.priority", PInt 5);
          ("topics.teleop.stamped_topic", PBool true);
          ("locks.estop.topic", PString "e_stop");
          ("locks.estop.timeout", PDouble 2);
          ("locks.estop.priority", PInt 10);
          ("locks.estop.stamped_topic", PBool false);
          ("output_stamped", PBool true)]).

Definition scenario_started : TwistMux :=
  state_of (init (TwistMux_new scenario_parameters 0)).

Definition drive_command : Message := TwistMsg (twist_of 1 0.5).

Definition teleop_command (t : Time) : Message :=
  TwistStampedMsg (TwistStamped.mk (Header.mk t "base_link") (twist_of 2 0)).

(** The node, [t] later on the clock, after the call [c]. *)
Definition later (t : Time) {A} (c : M A) (mux : TwistMux) : TwistMux :=
  state_of (c (set_clock mux t)).

(** Teleop received at t = 0; then the e-stop asserted at t = 2 s. *)
Definition after_teleop : TwistMux :=
  later 0 (onVelocityReceived "topics.teleop" (teleop_command 0))
        scenario_started.

Definition after_estop : TwistMux :=
  later (2 * second) (onLockReceived "locks.estop" true) after_teleop.

(** ** Vocabulary for the further properties *)

(** The velocities a command carries, whatever its representation. *)
Definition payload (msg : Message) : Twist.t :=
  match msg with
  | TwistMsg m => m
  | TwistStampedMsg m => TwistStamped.twist m
  end.

(** The fatal report of [publishTwist] for an output mode (lines 141, 152). *)
Definition publisher_report (stamped : bool) : event :=
  Logged FATAL
    (if stamped
     then "Expected TwistStamped publisher, but received different type."
     else "Expected Twist publisher, but received different type.") [].

(** The priorities of the locks that are locked, in registration order. *)
Definition locked_priorities (now : Time) (ls : list LockTopicHandle)
  : list priority_type :=
  map priority_ (filter (isLocked now) ls).

Definition max_from_zero (ps : list priority_type) : priority_type :=
  fold_right Z.max 0 ps.

(** The body of the loop of [getTopicHandles] (lines 167-197). *)
Definition register_prefix (T : handle_kind) (prefix : string) : M unit :=
  (RCLCPP_DEBUG "Prefix: %s" [ArgString prefix];;;
   topic <- fetch_param as_string (prefix ++ ".topic")%string;;
   timeout <- fetch_param as_double (prefix ++ ".timeout")%string;;
   priority <- fetch_param as_int (prefix ++ ".priority")%string;;
   stamped_topic <- fetch_param as_bool (prefix ++ ".stamped_topic")%string;;
   RCLCPP_DEBUG "Retrieved topic: %s" [ArgString topic];;;
   RCLCPP_DEBUG "Listed prefix: %.2f" [ArgDouble timeout];;;
   RCLCPP_DEBUG "Listed prefix: %d" [ArgInt priority];;;
   emplace_back T prefix topic timeout priority stamped_topic)%mux.

(** The handler of the [catch] of [getTopicHandles] (lines 198-201). *)
Definition report_and_rethrow (param_name what : string) : M unit :=
  (RCLCPP_FATAL "Error parsing params '%s':\n\t%s"
                [ArgString param_name; ArgString what];;;
   throw (ParamsHelperException what))%mux.

(** The fatal report of that handler. *)
Definition parse_report (param_name what : string) : event :=
  Logged FATAL "Error parsing params '%s':\n\t%s"
         [ArgString param_name; ArgString what].

(** The names of the handles of one container, in registration order. *)
Definition names_of (T : handle_kind) (mux : TwistMux) : list string :=
  match T with
  | velocity_handles => map getName (velocity_hs_ mux)
  | lock_handles => map name_ (lock_hs_ mux)
  end.

(** [mux'] is [mux] with handles named [names] added at the end of the
    container [T], and nothing else changed. *)
Definition appended (T : handle_kind) (names : list string)
    (mux mux' : TwistMux) : Prop :=
  parameters mux' = parameters mux /\
  clock mux' = clock mux /\
  output_stamped mux' = output_stamped mux /\
  cmd_pub_ mux' = cmd_pub_ mux /\
  status_priority mux' = status_priority mux /\
  match T with
  | velocity_handles =>
      lock_hs_ mux' = lock_hs_ mux /\
      exists added, velocity_hs_ mux' = velocity_hs_ mux ++ added /\
                    map getName added = names
  | lock_handles =>
      velocity_hs_ mux' = velocity_hs_ mux /\
      exists added, lock_hs_ mux' = lock_hs_ mux ++ added /\
                    map name_ added = names
  end.

(** A twist driven the other way: linear.x and angular.z negated. *)
Definition reversed (t : Twist.t) : Twist.t :=
  Twist.mk
    (Vector3.mk (- Vector3.x (Twist.linear t))%float
                (Vector3.y (Twist.linear t)) (Vector3.z (Twist.linear t)))
    (Vector3.mk (Vector3.x (Twist.angular t)) (Vector3.y (Twist.angular t))
                (- Vector3.z (Twist.angular t))%float).

(** ** The loops as folds *)

Section LockFold.
Variable now : Time.

Lemma lock_fold_ge (ls : list LockTopicHandle) (p0 : priority_type) :
  p0 <= fold_left (lock_priority_step now) ls p0.
Proof.
  revert p0; induction ls as [|l ls IH]; intros p0; simpl; [lia|].
  etransitivity; [|apply IH].
  unfold lock_priority_step.
  destruct (isLocked now l); [|lia].
  destruct (Z.ltb_spec p0 (priority_ l)); lia.
Qed.

Lemma lock_fold_upper (ls : list LockTopicHandle) (p0 : priority_type) :
  forall l, In l ls -> isLocked now l = true ->
            priority_ l <= fold_left (lock_priority_step now) ls p0.
Proof.
  revert p0; induction ls as [|l0 ls IH]; intros p0 l Hin Hl; [easy|].
  simpl. destruct Hin as [->|Hin]; [|now apply IH].
  etransitivity; [|apply lock_fold_ge].
  unfold lock_priority_step. rewrite Hl.
  destruct (Z.ltb_spec p0 (priority_ l)); lia.
Qed.

Lemma lock_fold_attained (ls : list LockTopicHandle) (p0 : priority_type) :
  fold_left (lock_priority_step now) ls p0 = p0 \/
  exists l, In l ls /\ isLocked now l = true /\
            priority_ l = fold_left (lock_priority_step now) ls p0.
Proof.
  revert p0; induction ls as [|l0 ls IH]; intros p0; simpl; [now left|].
  destruct (IH (lock_priority_step now p0 l0)) as [E|(l & Hin & Hl & E)].
  - rewrite E. unfold lock_priority_step.
    destruct (isLocked now l0) eqn:Hl0; [|now left].
    destruct (Z.ltb_spec p0 (priority_ l0)); [|now left].
    right. exists l0. auto.
  - right. exists l. auto.
Qed.

Lemma lock_fold_none (ls : list LockTopicHandle) (p0 : priority_type) :
  (forall l, In l ls -> isLocked now l = false) ->
  fold_left (lock_priority_step now) ls p0 = p0.
Proof.
  intros Hnone.
  destruct (lock_fold_attained ls p0) as [E|(l & Hin & Hl & _)]; [exact E|].
  rewrite (Hnone l Hin) in Hl. discriminate.
Qed.
End LockFold.

Section VelocityFold.
Variables (now : Time) (lock_priority : priority_type).

Let step := has_priority_step now lock_priority.
Let unmasked (u : velocity_handle_variant) : Prop :=
  isMasked now u lock_priority = false.

Lemma has_priority_step_cases (p0 : priority_type) (n0 : string)
    (h : velocity_handle_variant) :
  (unmasked h /\ p0 < getPriority h /\
   step (p0, n0) h = (getPriority h, getName h)) \/
  ((unmasked h -> getPriority h <= p0) /\ step (p0, n0) h = (p0, n0)).
Proof.
  unfold step, unmasked, has_priority_step.
  destruct (isMasked now h lock_priority); simpl.
  - right. split; [discriminate|reflexivity].
  - destruct (Z.ltb_spec p0 (getPriority h)); [left|right]; auto.
Qed.

Lemma velocity_fold_spec (hs : list velocity_handle_variant)
    (p0 : priority_type) (n0 : string) :
  let r := fold_left step hs (p0, n0) in
  p0 <= fst r /\
  (forall u, In u hs -> unmasked u -> getPriority u <= fst r) /\
  (r = (p0, n0) \/
   p0 < fst r /\
   exists u, In u hs /\ unmasked u /\
             getPriority u = fst r /\ getName u = snd r).
Proof.
  revert p0 n0; induction hs as [|h hs IH]; intros p0 n0; cbn [fold_left].
  - simpl. repeat split; [lia|easy|now left].
  - destruct (has_priority_step_cases p0 n0 h) as [(Hu & Hlt & E)|(Hle & E)];
      rewrite E.
    + destruct (IH (getPriority h) (getName h)) as (Hge & Hup & Hat).
      split; [lia|]. split.
      * intros u [->|Hin] Hunm; [exact Hge|now apply Hup].
      * right. split; [lia|].
        destruct Hat as [E'|(_ & u & Hin & Hunm & Ep & En)].
        -- exists h. rewrite E'. split; [now left|auto].
        -- exists u. split; [now right|auto].
    + destruct (IH p0 n0) as (Hge & Hup & Hat).
      split; [exact Hge|]. split.
      * intros u [->|Hin] Hunm; [specialize (Hle Hunm); lia|now apply Hup].
      * destruct Hat as [E'|(Hlt & u & Hin & Hunm & Ep & En)];
          [now left|right].
        split; [exact Hlt|]. exists u. split; [now right|auto].
Qed.
(** The name the loop ends with is that of [s] exactly when [s] is the
    first unmasked source of greatest priority and that priority is above
    the initial 0. *)
Lemma winner_name_iff (pre : list velocity_handle_variant)
    (s : velocity_handle_variant) (post : list velocity_handle_variant) :
  NoDup (map getName (pre ++ s :: post)) ->
  getName s <> "NULL" ->
  snd (fold_left step (pre ++ s :: post) (0, "NULL")) = getName s <->
  0 < getPriority s /\ first_max_unmasked now lock_priority pre s post.
Proof.
  intros Hnd Hnull.
  rewrite map_app in Hnd; simpl in Hnd. apply NoDup_remove_2 in Hnd.
  assert (Hpre : forall u, In u pre -> getName u <> getName s).
  { intros u Hin E. apply Hnd, in_or_app. left.
    rewrite <- E. now apply in_map. }
  assert (Hpost : forall u, In u post -> getName u <> getName s).
  { intros u Hin E. apply Hnd, in_or_app. right.
    rewrite <- E. now apply in_map. }
  clear Hnd. unfold first_max_unmasked.
  rewrite fold_left_app. cbn [fold_left].
  pose proof (velocity_fold_spec pre 0 "NULL") as (Hge1 & Hup1 & Hat1).
  remember (fold_left step pre (0, "NULL")) as r1 eqn:E1.
  destruct r1 as [p1 n1]. cbn [fst snd] in *.
  assert (Hn1 : n1 <> getName s).
  { destruct Hat1 as [E|(_ & u & Hin & _ & _ & En)].
    - injection E as _ ->. congruence.
    - rewrite <- En. now apply Hpre. }
  destruct (has_priority_step_cases p1 n1 s) as [(Hu & Hlt & E)|(Hle & E)];
    rewrite E.
  - pose proof (velocity_fold_spec post (getPriority s) (getName s))
      as (Hge2 & Hup2 & Hat2).
      remember (fold_left step post (getPriority s, getName s)) as r2 eqn:E2.
    destruct r2 as [p2 n2]. cbn [fst snd] in *. split.
    + intros En. destruct Hat2 as [E'|(Hlt2 & u & Hin & _ & _ & En')].
      * injection E' as -> _. split; [lia|]. split; [exact Hu|]. split.
        -- intros u Hin Hunm. specialize (Hup1 u Hin Hunm). lia.
        -- exact Hup2.
      * exfalso. apply (Hpost u Hin). congruence.
    + intros (Hpos & _ & _ & Hpo).
      destruct Hat2 as [E'|(Hlt2 & u & Hin & Hunm & Ep & _)].
      * now injection E' as _ ->.
      * specialize (Hpo u Hin Hunm). lia.
  - pose proof (velocity_fold_spec post p1 n1) as (Hge2 & Hup2 & Hat2).
      remember (fold_left step post (p1, n1)) as r2 eqn:E2.
    destruct r2 as [p2 n2]. cbn [fst snd] in *. split.
    + intros En. exfalso.
      destruct Hat2 as [E'|(_ & u & Hin & _ & _ & En')].
      * injection E' as _ ->. congruence.
      * apply (Hpost u Hin). congruence.
    + intros (Hpos & Hu & Hpr & _). exfalso. specialize (Hle Hu).
      destruct Hat1 as [E'|(_ & u & Hin & Hunm & Ep & _)].
      * injection E' as -> _. lia.
      * specialize (Hpr u Hin Hunm). lia.
Qed.

(** With every source masked the loop never leaves its initial values. *)
Lemma all_masked_no_winner (hs : list velocity_handle_variant)
    (acc : priority_type * string) :
  (forall u, In u hs -> isMasked now u lock_priority = true) ->
  fold_left step hs acc = acc.
Proof.
  revert acc; induction hs as [|h hs IH]; intros [p0 n0] Hall;
    cbn [fold_left]; [reflexivity|].
  destruct (has_priority_step_cases p0 n0 h) as [(Hu & _)|(_ & E)].
  - unfold unmasked in Hu. rewrite (Hall h (or_introl eq_refl)) in Hu.
    discriminate.
  - rewrite E. apply IH. intros u Hin. apply Hall. now right.
Qed.
End VelocityFold.

(** ** Running a call *)

Lemma getLockPriority_run (mux : TwistMux) :
  getLockPriority mux =
  (Ok (lock_priority_of mux), mux, [priority_log (lock_priority_of mux)]).
Proof. reflexivity. Qed.

Lemma hasPriority_run (twist : velocity_handle_variant) (mux : TwistMux) :
  hasPriority twist mux =
  (Ok (getName twist =? snd (arbitration_of mux))%string, mux,
   [priority_log (lock_priority_of mux)]).
Proof.
  unfold hasPriority, bind. rewrite getLockPriority_run.
  unfold this, arbitration_of.
  destruct (fold_left _ (velocity_hs_ mux) (0, "NULL")) as [p n].
  reflexivity.
Qed.

Lemma publishTwist_run (msg : Message) (mux : TwistMux) :
  publisher_matches mux ->
  publishTwist msg mux =
  (Ok tt, mux, [Published (adapt (output_stamped mux) msg)]).
Proof.
  unfold publisher_matches, publishTwist, bind, this. intros Hpub.
  destruct (output_stamped mux); rewrite Hpub; destruct msg; reflexivity.
Qed.

Lemma publishTwist_state (msg : Message) (mux : TwistMux) :
  state_of (publishTwist msg mux) = mux.
Proof.
  unfold publishTwist, bind, this, state_of.
  destruct (output_stamped mux), (cmd_pub_ mux), msg; reflexivity.
Qed.

Lemma arbitrate_run (twist : velocity_handle_variant) (value : Message)
    (mux : TwistMux) :
  arbitrate twist value mux =
  if (getName twist =? snd (arbitration_of mux))%string
  then (value_of (publishTwist value mux), state_of (publishTwist value mux),
        priority_log (lock_priority_of mux) :: trace_of (publishTwist value mux))
  else (Ok tt, mux, [priority_log (lock_priority_of mux)]).
Proof.
  unfold arbitrate, bind. rewrite hasPriority_run.
  destruct (getName twist =? snd (arbitration_of mux))%string; [|reflexivity].
  destruct (publishTwist value mux) as [[r mux'] tr]. reflexivity.
Qed.

(** ** The model on the scenarios of the spec *)

Example scenario_started_handles :
  velocity_hs_ scenario_started =
    [TwistHandle
       (mkTopicHandle "topics.drive" "drive_vel" second 1 None Twist.zero);
     TwistStampedHandle
       (mkTopicHandle "topics.teleop" "teleop_vel" (second / 2) 5 None
                      TwistStamped.default)] /\
  lock_hs_ scenario_started =
    [mkTopicHandle "locks.estop" "e_stop" (2 * second) 10 None false] /\
  output_stamped scenario_started = true /\
  cmd_pub_ scenario_started = TwistStampedPublisher.
Proof. repeat split. Qed.

(** A missing field stops [init] with the exception, after the fatal log. *)
Example init_missing_field :
  let p := mkNodeParameters (fun _ => ["topics.drive"]) (fun _ => None) in
  value_of (init (TwistMux_new p 0)) =
    Throw (ParamsHelperException
             "could not load parameter 'topics.drive.topic'") /\
  existsb is_fatal (trace_of (init (TwistMux_new p 0))) = true.
Proof. split; reflexivity. Qed.

(** Scenario A: teleop (priority 5, timeout 0.5 s) updated at t = 0 is
    forwarded; drive (priority 1) updated at t = 0.1 s is dropped, teleop
    being still fresh; at t = 1 s teleop is stale and drive goes out. *)
Example scenario_A :
  published (trace_of (onVelocityReceived "topics.teleop" (teleop_command 0)
                         scenario_started)) =
    [OutTwistStamped
       (TwistStamped.mk (Header.mk 0 "base_link") (twist_of 2 0))] /\
  published (trace_of (onVelocityReceived "topics.drive" drive_command
                         (set_clock after_teleop (second / 10)))) = [] /\
  published (trace_of (onVelocityReceived "topics.drive" drive_command
                         (set_clock after_teleop second))) =
    [OutTwistStamped (TwistStamped.mk Header.default (twist_of 1 0.5))].
Proof. repeat split. Qed.

(** Scenario B: with the e-stop (priority 10, timeout 2 s) asserted at
    t = 2 s, drive is dropped at t = 3 s and goes out again at t = 5 s, the
    lock having timed out. *)
Example scenario_B :
  value_of (getLockPriority (set_clock after_estop (3 * second))) = Ok 10 /\
  published (trace_of (onVelocityReceived "topics.drive" drive_command
                         (set_clock after_estop (3 * second)))) = [] /\
  value_of (getLockPriority (set_clock after_estop (5 * second))) = Ok 0 /\
  published (trace_of (onVelocityReceived "topics.drive" drive_command
                         (set_clock after_estop (5 * second)))) =
    [OutTwistStamped (TwistStamped.mk Header.default (twist_of 1 0.5))].
Proof. repeat split. Qed.

Example unknown_name_is_reported :
  value_of (onVelocityReceived "topics.joy" drive_command scenario_started) =
    Throw (UnknownName "topics.joy") /\
  state_of (onVelocityReceived "topics.joy" drive_command scenario_started) =
    scenario_started.
Proof. split; reflexivity. Qed.

(** ** The claims *)

(** C3. With the lock priorities non-negative, as the configuration
    requires, [getLockPriority] returns a value no locked lock exceeds; when
    some lock is locked that value is the priority of a locked lock, so it is
    the maximum over the locked locks; when none is locked it is 0. *)
Theorem getLockPriority_is_max_of_locked (mux : TwistMux) :
  Forall (fun l => 0 <= priority_ l) (lock_hs_ mux) ->
  exists p,
    value_of (getLockPriority mux) = Ok p /\
    (forall l, In l (lock_hs_ mux) -> isLocked (clock mux) l = true ->
               priority_ l <= p) /\
    ((exists l, In l (lock_hs_ mux) /\ isLocked (clock mux) l = true) ->
     exists l, In l (lock_hs_ mux) /\ isLocked (clock mux) l = true /\
               priority_ l = p) /\
    ((forall l, In l (lock_hs_ mux) -> isLocked (clock mux) l = false) ->
     p = 0).
Proof.
  intros Hnonneg. exists (lock_priority_of mux).
  rewrite getLockPriority_run. unfold lock_priority_of.
  split; [reflexivity|]. split; [|split].
  - intros l Hin Hl. now apply lock_fold_upper.
  - intros (l & Hin & Hl).
    destruct (lock_fold_attained (clock mux) (lock_hs_ mux) 0)
      as [E|(l' & Hin' & Hl' & E)].
    + exists l. repeat split; trivial. rewrite E.
      pose proof (lock_fold_upper (clock mux) (lock_hs_ mux) 0 l Hin Hl) as Hle.
      rewrite E in Hle. rewrite Forall_forall in Hnonneg.
      specialize (Hnonneg l Hin). lia.
    + exists l'. auto.
  - apply lock_fold_none.
Qed.

Lemma getLockPriority_is_max_of_locked_witness :
  Forall (fun l => 0 <= priority_ l) (lock_hs_ locked_mux) /\
  (exists l, In l (lock_hs_ locked_mux) /\
             isLocked (clock locked_mux) l = true) /\
  exists p,
    value_of (getLockPriority locked_mux) = Ok p /\
    (forall l, In l (lock_hs_ locked_mux) ->
               isLocked (clock locked_mux) l = true -> priority_ l <= p) /\
    ((exists l, In l (lock_hs_ locked_mux) /\
                isLocked (clock locked_mux) l = true) ->
     exists l, In l (lock_hs_ locked_mux) /\
               isLocked (clock locked_mux) l = true /\ priority_ l = p) /\
    ((forall l, In l (lock_hs_ locked_mux) ->
                isLocked (clock locked_mux) l = false) -> p = 0).
Proof.
  assert (Hnonneg : Forall (fun l => 0 <= priority_ l) (lock_hs_ locked_mux)).
  { repeat constructor; simpl; lia. }
  split; [exact Hnonneg|]. split.
  - exists (lock_source "locks.estop" (2 * second) 10 (Some 0) true).
    split; [now left|reflexivity].
  - exact (getLockPriority_is_max_of_locked locked_mux Hnonneg).
Defined.

(** C9. [getLockPriority] called twice in a row at the same time returns the
    same value both times, and each call leaves the node, handles included,
    as it found it. *)
Theorem getLockPriority_idempotent (mux : TwistMux) :
  let first := getLockPriority mux in
  let again := getLockPriority (state_of first) in
  value_of again = value_of first /\
  state_of first = mux /\
  state_of again = mux /\
  velocity_hs_ (state_of again) = velocity_hs_ mux /\
  lock_hs_ (state_of again) = lock_hs_ mux.
Proof.
  cbv zeta. rewrite getLockPriority_run.
  change (state_of (Ok (lock_priority_of mux), mux,
                    [priority_log (lock_priority_of mux)])) with mux.
  rewrite getLockPriority_run. repeat split.
Qed.

(** C2. For every source and node state, with the effective lock priority
    that [getLockPriority] computes: the source is masked by locks exactly
    when its priority is strictly below it, a source of equal priority is
    not masked by locks, and for a source that is not stale [isMasked] is
    that same comparison. *)
Theorem masked_by_lock_iff_below (mux : TwistMux) (v : velocity_handle_variant)
    (lock_priority : priority_type) :
  value_of (getLockPriority mux) = Ok lock_priority ->
  (masked_by_lock v lock_priority = true <-> getPriority v < lock_priority) /\
  (getPriority v = lock_priority -> masked_by_lock v lock_priority = false) /\
  (isStale (clock mux) v = false ->
   (isMasked (clock mux) v lock_priority = true <->
    getPriority v < lock_priority)).
Proof.
  intros _. unfold isMasked, masked_by_lock. split; [|split].
  - apply Z.ltb_lt.
  - intros ->. apply Z.ltb_irrefl.
  - intros ->. simpl. apply Z.ltb_lt.
Qed.

Lemma masked_by_lock_iff_below_witness :
  let v := velocity_source "topics.teleop" second 10 (Some second) in
  value_of (getLockPriority locked_mux) = Ok 10 /\
  getPriority v = 10 /\
  isStale (clock locked_mux) v = false /\
  (masked_by_lock v 10 = true <-> getPriority v < 10) /\
  (getPriority v = 10 -> masked_by_lock v 10 = false) /\
  (isStale (clock locked_mux) v = false ->
   (isMasked (clock locked_mux) v 10 = true <-> getPriority v < 10)).
Proof.
  repeat (split; [reflexivity|]).
  exact (masked_by_lock_iff_below locked_mux
           (velocity_source "topics.teleop" second 10 (Some second)) 10
           eq_refl).
Defined.

(** Source names are the prefixes that [list_parameters] finds under
    "topics" (line 83), so none is the placeholder that [hasPriority]
    starts from. *)
Lemma name_under_topics_not_placeholder (name : string) :
  String.prefix "topics" name = true -> name <> "NULL".
Proof. intros Hprefix ->. discriminate Hprefix. Qed.

(** The full reading of [hasPriority]: true exactly for the first unmasked
    source of greatest priority, provided that priority is above 0. *)
Lemma hasPriority_spec (mux : TwistMux)
    (pre : list velocity_handle_variant) (s : velocity_handle_variant)
    (post : list velocity_handle_variant) :
  velocity_hs_ mux = pre ++ s :: post ->
  NoDup (map getName (velocity_hs_ mux)) ->
  getName s <> "NULL" ->
  value_of (hasPriority s mux) = Ok true <->
  0 < getPriority s /\
  first_max_unmasked (clock mux) (lock_priority_of mux) pre s post.
Proof.
  intros Hhs Hnd Hnull. rewrite hasPriority_run.
  unfold value_of, arbitration_of. cbn [fst]. rewrite Hhs in *.
  rewrite <- (winner_name_iff _ _ pre s post Hnd Hnull).
  split.
  - intros E. injection E as E. apply String.eqb_eq in E. now symmetry.
  - intros E. f_equal. apply String.eqb_eq. now symmetry.
Qed.

(** C1, as amended. For a registered source [s] of positive priority (names
    distinct, none the placeholder NULL): [hasPriority s] returns true if
    and only if [s] is unmasked under the lock priority computed at that
    call, has a priority strictly greater than every unmasked source
    registered before it and at least that of every unmasked source
    registered after it; and the arbitration that ends a reception puts the
    command on the output exactly in that case. *)
Theorem hasPriority_iff_first_max_unmasked (mux : TwistMux)
    (pre : list velocity_handle_variant) (s : velocity_handle_variant)
    (post : list velocity_handle_variant) (lock_priority : priority_type) :
  velocity_hs_ mux = pre ++ s :: post ->
  NoDup (map getName (velocity_hs_ mux)) ->
  getName s <> "NULL" ->
  0 < getPriority s ->
  publisher_matches mux ->
  value_of (getLockPriority mux) = Ok lock_priority ->
  (value_of (hasPriority s mux) = Ok true <->
   first_max_unmasked (clock mux) lock_priority pre s post) /\
  (forall value,
     published (trace_of (arbitrate s value mux)) <> [] <->
     first_max_unmasked (clock mux) lock_priority pre s post) /\
  (forall value,
     first_max_unmasked (clock mux) lock_priority pre s post ->
     published (trace_of (arbitrate s value mux)) =
     [adapt (output_stamped mux) value]).
Proof.
  intros Hhs Hnd Hnull Hpos Hpub Hlp.
  rewrite getLockPriority_run in Hlp. injection Hlp as <-.
  pose proof (hasPriority_spec mux pre s post Hhs Hnd Hnull) as Hspec.
  assert (Hiff : value_of (hasPriority s mux) = Ok true <->
                 first_max_unmasked (clock mux) (lock_priority_of mux) pre s post)
    by (rewrite Hspec; tauto).
  clear Hspec. split; [exact Hiff|].
  rewrite hasPriority_run in Hiff. unfold value_of in Hiff. cbn [fst] in Hiff.
  split; intros value; rewrite <- Hiff;
    rewrite arbitrate_run, publishTwist_run by exact Hpub;
    destruct (getName s =? snd (arbitration_of mux))%string; simpl.
  - split; [reflexivity|discriminate].
  - split; [congruence|discriminate].
  - reflexivity.
  - discriminate.
Qed.

Lemma hasPriority_iff_first_max_unmasked_witness :
  let a := velocity_source "topics.a" second 5 (Some second) in
  let b := velocity_source "topics.b" second 5 (Some second) in
  (value_of (hasPriority a tie_mux) = Ok true <->
   first_max_unmasked (clock tie_mux) 0 [] a [b]) /\
  (forall value,
     published (trace_of (arbitrate a value tie_mux)) <> [] <->
     first_max_unmasked (clock tie_mux) 0 [] a [b]) /\
  (forall value,
     first_max_unmasked (clock tie_mux) 0 [] a [b] ->
     published (trace_of (arbitrate a value tie_mux)) =
     [adapt (output_stamped tie_mux) value]).
Proof.
  apply (hasPriority_iff_first_max_unmasked tie_mux []
           (velocity_source "topics.a" second 5 (Some second))
           [velocity_source "topics.b" second 5 (Some second)] 0).
  - reflexivity.
  - simpl. repeat constructor; simpl; intuition discriminate.
  - discriminate.
  - reflexivity.
  - reflexivity.
  - reflexivity.
Defined.

(** C1 as stated fails on a tie: of two unmasked sources of equal
    priority 5 the first has priority, yet its priority is not strictly
    greater than that of the other. *)
Lemma strictly_greatest_fails_on_tie :
  let a := velocity_source "topics.a" second 5 (Some second) in
  In a (velocity_hs_ tie_mux) /\
  value_of (getLockPriority tie_mux) = Ok 0 /\
  value_of (hasPriority a tie_mux) = Ok true /\
  ~ strictly_greatest_unmasked (clock tie_mux) 0 (velocity_hs_ tie_mux) a.
Proof.
  cbv zeta. split; [now left|]. split; [reflexivity|]. split; [reflexivity|].
  intros (_ & Hgt).
  specialize (Hgt (velocity_source "topics.b" second 5 (Some second))).
  assert (Hlt : (5 < 5)%Z).
  { apply Hgt.
    - right. now left.
    - discriminate.
    - reflexivity. }
  lia.
Qed.

(** C6. When every registered source is masked at an arbitration call,
    [hasPriority] returns false for every registered source (none is named
    by the placeholder NULL) and the arbitration puts nothing on the
    output. *)
Theorem all_masked_no_output (mux : TwistMux) (lock_priority : priority_type)
    (s : velocity_handle_variant) :
  value_of (getLockPriority mux) = Ok lock_priority ->
  (forall u, In u (velocity_hs_ mux) ->
             isMasked (clock mux) u lock_priority = true) ->
  In s (velocity_hs_ mux) ->
  getName s <> "NULL" ->
  value_of (hasPriority s mux) = Ok false /\
  (forall value, published (trace_of (arbitrate s value mux)) = []) /\
  (forall value, state_of (arbitrate s value mux) = mux).
Proof.
  intros Hlp Hall _ Hnull.
  rewrite getLockPriority_run in Hlp. injection Hlp as <-.
  assert (E : (getName s =? snd (arbitration_of mux))%string = false).
  { unfold arbitration_of. rewrite all_masked_no_winner by exact Hall.
    now apply String.eqb_neq. }
  rewrite hasPriority_run. unfold value_of. cbn [fst]. rewrite E.
  split; [reflexivity|].
  split; intros value; rewrite arbitrate_run, E; reflexivity.
Qed.

Lemma all_masked_no_output_witness :
  let drive := velocity_source "topics.drive" second 1 (Some second) in
  let mux := set_velocity_hs locked_mux [drive] in
  value_of (hasPriority drive mux) = Ok false /\
  (forall value, published (trace_of (arbitrate drive value mux)) = []) /\
  (forall value, state_of (arbitrate drive value mux) = mux).
Proof.
  apply (all_masked_no_output
           (set_velocity_hs locked_mux
              [velocity_source "topics.drive" second 1 (Some second)]) 10).
  - reflexivity.
  - intros u [<-|[]]. reflexivity.
  - now left.
  - discriminate.
Defined.

(** For what the code gets right about ties: among sources of positive
    priority, the earliest unmasked source of the greatest priority has
    priority, whatever follows it at equal priority. *)
Lemma earliest_of_equal_highest_wins (mux : TwistMux)
    (pre : list velocity_handle_variant) (s : velocity_handle_variant)
    (post : list velocity_handle_variant) :
  velocity_hs_ mux = pre ++ s :: post ->
  NoDup (map getName (velocity_hs_ mux)) ->
  getName s <> "NULL" ->
  0 < getPriority s ->
  first_max_unmasked (clock mux) (lock_priority_of mux) pre s post ->
  value_of (hasPriority s mux) = Ok true /\
  (forall u, In u post -> value_of (hasPriority u mux) = Ok false).
Proof.
  intros Hhs Hnd Hnull Hpos Hfm.
  assert (Hs : value_of (hasPriority s mux) = Ok true)
    by (apply (hasPriority_spec mux pre s post); auto).
  split; [exact Hs|]. intros u Hin.
  rewrite hasPriority_run in *. unfold value_of in *. cbn [fst] in *.
  injection Hs as Hs. apply String.eqb_eq in Hs. rewrite <- Hs.
  f_equal. apply String.eqb_neq. intros E.
  rewrite Hhs, map_app in Hnd. simpl in Hnd. apply NoDup_remove_2 in Hnd.
  apply Hnd, in_or_app. right. rewrite <- E. now apply in_map.
Qed.

(** A source of priority 0 never has priority, even when it is the only
    one and unmasked: the running maximum starts at 0 and only a strictly
    greater priority replaces it. *)
Lemma priority_zero_never_wins (mux : TwistMux) (s : velocity_handle_variant) :
  getName s <> "NULL" ->
  NoDup (map getName (velocity_hs_ mux)) ->
  In s (velocity_hs_ mux) ->
  getPriority s = 0 ->
  value_of (hasPriority s mux) = Ok false.
Proof.
  intros Hnull Hnd Hin Hzero.
  destruct (in_split _ _ Hin) as (pre & post & Hhs).
  pose proof (hasPriority_spec mux pre s post Hhs Hnd Hnull) as Hspec.
  rewrite hasPriority_run in *. unfold value_of in *. cbn [fst] in *.
  destruct (getName s =? snd (arbitration_of mux))%string; [|reflexivity].
  destruct Hspec as [Hspec _]. specialize (Hspec eq_refl). lia.
Qed.

(** C4, at the input where the code departs from it: two unmasked sources
    share the highest priority, 0, and [hasPriority] is false for both, the
    earliest included, so neither is forwarded. *)
Theorem tie_at_priority_zero_has_no_winner :
  let a := velocity_source "topics.a" second 0 (Some (2 * second)) in
  let b := velocity_source "topics.b" second 0 (Some (2 * second)) in
  velocity_hs_ zero_mux = [a; b] /\
  value_of (getLockPriority zero_mux) = Ok 0 /\
  isMasked (clock zero_mux) a 0 = false /\
  isMasked (clock zero_mux) b 0 = false /\
  getPriority a = getPriority b /\
  value_of (hasPriority a zero_mux) = Ok false /\
  value_of (hasPriority b zero_mux) = Ok false /\
  (forall value, published (trace_of (arbitrate a value zero_mux)) = []).
Proof.
  cbv zeta. repeat (split; [reflexivity|]).
  intros value. rewrite arbitrate_run. reflexivity.
Qed.

(** C5, as amended. With time-stamped output, publishing a bare command
    puts on the output one time-stamped record whose payload is the command
    and whose header is the default one: timestamp 0 and empty frame, at
    whatever time the call is made. *)
Theorem bare_to_stamped_default_header (mux : TwistMux) (m : Twist.t) :
  output_stamped mux = true ->
  cmd_pub_ mux = TwistStampedPublisher ->
  exists out,
    publishTwist (TwistMsg m) mux = (Ok tt, mux, [Published (OutTwistStamped out)]) /\
    TwistStamped.twist out = m /\
    Header.stamp (TwistStamped.header out) = 0 /\
    Header.frame_id (TwistStamped.header out) = "".
Proof.
  intros Hout Hpub. exists (TwistStamped.mk Header.default m).
  unfold publishTwist, bind, this. rewrite Hout, Hpub.
  repeat split.
Qed.

Lemma bare_to_stamped_default_header_witness :
  exists out,
    publishTwist (TwistMsg (twist_of 1 0.5)) stamped_mux =
    (Ok tt, stamped_mux, [Published (OutTwistStamped out)]) /\
    TwistStamped.twist out = twist_of 1 0.5 /\
    Header.stamp (TwistStamped.header out) = 0 /\
    Header.frame_id (TwistStamped.header out) = "".
Proof.
  exact (bare_to_stamped_default_header stamped_mux (twist_of 1 0.5)
           eq_refl eq_refl).
Defined.

(** C5 as stated fails at t = 5 s: the winning source's bare command
    goes out with timestamp 0, through [publishTwist] and through the whole
    reception alike. *)
Lemma bare_to_stamped_not_current_time :
  let m := twist_of 1 0.5 in
  output_stamped stamped_mux = true /\
  cmd_pub_ stamped_mux = TwistStampedPublisher /\
  clock stamped_mux = 5 * second /\
  published (trace_of (onVelocityReceived "topics.drive" (TwistMsg m) stamped_mux))
  = [OutTwistStamped (TwistStamped.mk (Header.mk 0 "") m)] /\
  ~ stamped_with_current_time stamped_mux m.
Proof.
  cbv zeta. repeat (split; [reflexivity|]).
  intros (out & Hout & _ & Hstamp).
  injection Hout as <-. discriminate Hstamp.
Qed.

(** C7. With time-stamped output and its publisher, publishing a
    time-stamped command puts that very message on the output, header and
    payload untouched, and leaves the node as it was. *)
Theorem stamped_to_stamped_pass_through (mux : TwistMux) (m : TwistStamped.t) :
  output_stamped mux = true ->
  cmd_pub_ mux = TwistStampedPublisher ->
  publishTwist (TwistStampedMsg m) mux =
  (Ok tt, mux, [Published (OutTwistStamped m)]).
Proof.
  intros Hout Hpub. unfold publishTwist, bind, this.
  rewrite Hout, Hpub. reflexivity.
Qed.

Lemma stamped_to_stamped_pass_through_witness :
  let m := TwistStamped.mk (Header.mk (4 * second) "base_link") (twist_of 1 0.5) in
  publishTwist (TwistStampedMsg m) stamped_mux =
  (Ok tt, stamped_mux, [Published (OutTwistStamped m)]).
Proof.
  exact (stamped_to_stamped_pass_through stamped_mux
           (TwistStamped.mk (Header.mk (4 * second) "base_link") (twist_of 1 0.5))
           eq_refl eq_refl).
Defined.

(** ** The output mode and its publisher along a run *)

Lemma same_output_matches (mux mux' : TwistMux) :
  same_output mux mux' -> publisher_matches mux -> publisher_matches mux'.
Proof.
  unfold same_output, publisher_matches. intros [-> ->]. trivial.
Qed.

Lemma arbitrate_same_output (twist : velocity_handle_variant)
    (value : Message) (mux : TwistMux) :
  state_of (arbitrate twist value mux) = mux.
Proof.
  rewrite arbitrate_run.
  destruct (getName twist =? snd (arbitration_of mux))%string; [|reflexivity].
  apply publishTwist_state.
Qed.

Lemma onVelocityReceived_same_output (sourceName : string) (value : Message)
    (mux : TwistMux) :
  same_output mux (state_of (onVelocityReceived sourceName value mux)).
Proof.
  unfold onVelocityReceived, bind, this.
  destruct (update_velocity sourceName value (clock mux) (velocity_hs_ mux))
    as [[[hs twist]|[]]|]; try (split; reflexivity).
  cbn [modify].
  pose proof (arbitrate_same_output twist value (set_velocity_hs mux hs)) as E.
  destruct (arbitrate twist value (set_velocity_hs mux hs)) as [[r mux'] tr].
  unfold state_of in *. cbn [fst snd] in *. subst mux'. split; reflexivity.
Qed.

Lemma onLockReceived_same_output (lockName : string) (asserted : bool)
    (mux : TwistMux) :
  same_output mux (state_of (onLockReceived lockName asserted mux)).
Proof.
  unfold onLockReceived, bind, this.
  destruct (update_lock lockName asserted (clock mux) (lock_hs_ mux));
    split; reflexivity.
Qed.

Lemma updateDiagnostics_same_output (mux : TwistMux) :
  same_output mux (state_of (updateDiagnostics mux)).
Proof.
  unfold updateDiagnostics, bind. rewrite getLockPriority_run.
  split; reflexivity.
Qed.

Lemma step_same_output (mux mux' : TwistMux) :
  step mux mux' -> same_output mux mux'.
Proof.
  intros [m t _|m n v r m' tr E|m n a r m' tr E|m r m' tr E].
  - split; reflexivity.
  - change m' with (state_of (r, m', tr)). rewrite <- E.
    apply onVelocityReceived_same_output.
  - change m' with (state_of (r, m', tr)). rewrite <- E.
    apply onLockReceived_same_output.
  - change m' with (state_of (r, m', tr)). rewrite <- E.
    apply updateDiagnostics_same_output.
Qed.

(** [init], when it returns, has created the publisher of the output mode
    it has read (lines 86-96). *)
Lemma init_publisher_matches (mux0 mux : TwistMux) (tr : list event) :
  init mux0 = (Ok tt, mux, tr) -> publisher_matches mux.
Proof.
  unfold init, bind, modify.
  destruct (getTopicHandles velocity_handles "topics" _) as [[[[]|e1] m1] t1];
    [|discriminate].
  destruct (getTopicHandles lock_handles "locks" m1) as [[[[]|e2] m2] t2];
    [|discriminate].
  unfold get_output_stamped, bind, this.
  destruct (get_parameter (parameters m2) "output_stamped") as [[s|d|i|[|]]|];
    cbn; intros E; try discriminate; injection E as <- _; reflexivity.
Qed.

Lemma running_publisher_matches (mux : TwistMux) :
  running mux -> publisher_matches mux.
Proof.
  induction 1 as [p t mux tr Hinit|mux mux' _ IH Hstep].
  - exact (init_publisher_matches _ _ _ Hinit).
  - exact (same_output_matches _ _ (step_same_output _ _ Hstep) IH).
Qed.

(** Any call made at a later time is a step of the run. *)
Lemma running_later (mux : TwistMux) (t : Time) :
  running mux -> clock mux <= t ->
  (forall sourceName value,
     running (later t (onVelocityReceived sourceName value) mux)) /\
  (forall lockName asserted,
     running (later t (onLockReceived lockName asserted) mux)) /\
  running (later t updateDiagnostics mux).
Proof.
  intros Hrun Ht.
  assert (Hclock : running (set_clock mux t)).
  { apply (running_step mux); [exact Hrun|]. now apply step_clock. }
  unfold later. repeat split; intros.
  - apply (running_step _ _ Hclock).
    destruct (onVelocityReceived sourceName value (set_clock mux t))
      as [[r mux'] tr] eqn:E.
    exact (step_velocity _ _ _ _ _ _ E).
  - apply (running_step _ _ Hclock).
    destruct (onLockReceived lockName asserted (set_clock mux t))
      as [[r mux'] tr] eqn:E.
    exact (step_lock _ _ _ _ _ _ E).
  - apply (running_step _ _ Hclock).
    destruct (updateDiagnostics (set_clock mux t)) as [[r mux'] tr] eqn:E.
    exact (step_diagnostics _ _ _ _ E).
Qed.

Lemma after_estop_running : running after_estop.
Proof.
  assert (H0 : running scenario_started).
  { apply (running_init scenario_parameters 0 scenario_started
             (trace_of (init (TwistMux_new scenario_parameters 0)))).
    reflexivity. }
  assert (H1 : running after_teleop).
  { apply (running_later scenario_started 0 H0). vm_compute. discriminate. }
  apply (running_later after_teleop (2 * second) H1). vm_compute. discriminate.
Qed.

(** C8. In a started node, after any receptions, timer ticks and passage of
    time, [publishTwist] finds the publisher that [init] created for the
    output mode: it puts on the output the one message that the conversion
    for (input representation, output mode) gives, and logs no fatal
    report. *)
Theorem publishTwist_mismatch_unreachable (mux : TwistMux) (msg : Message) :
  running mux ->
  publishTwist msg mux =
    (Ok tt, mux, [Published (adapt (output_stamped mux) msg)]) /\
  existsb is_fatal (trace_of (publishTwist msg mux)) = false.
Proof.
  intros Hrun. apply running_publisher_matches in Hrun.
  rewrite (publishTwist_run msg mux Hrun). split; reflexivity.
Qed.

Lemma publishTwist_mismatch_unreachable_witness :
  publishTwist drive_command after_estop =
    (Ok tt, after_estop,
     [Published (adapt (output_stamped after_estop) drive_command)]) /\
  existsb is_fatal (trace_of (publishTwist drive_command after_estop)) = false.
Proof.
  exact (publishTwist_mismatch_unreachable after_estop drive_command
           after_estop_running).
Defined.

(** Before [init] the fatal branch is what runs: the claim is about a
    started node. *)
Example publishTwist_before_init :
  trace_of (publishTwist (TwistMsg Twist.zero) (TwistMux_new no_parameters 0)) =
  [Logged FATAL "Expected Twist publisher, but received different type." []].
Proof. reflexivity. Qed.

(** C10. [hasIncreasedAbsVelocity old new] is true if and only if
    |new.linear.x| exceeds |old.linear.x| or |new.angular.z| exceeds
    |old.angular.z|, as [double] comparisons; twists that agree on linear.x
    and angular.z get the same answer, whatever their other components. *)
Theorem hasIncreasedAbsVelocity_iff (old_twist new_twist : Twist.t) :
  (hasIncreasedAbsVelocity old_twist new_twist = true <->
   PrimFloat.ltb (PrimFloat.abs (Vector3.x (Twist.linear old_twist)))
                 (PrimFloat.abs (Vector3.x (Twist.linear new_twist))) = true \/
   PrimFloat.ltb (PrimFloat.abs (Vector3.z (Twist.angular old_twist)))
                 (PrimFloat.abs (Vector3.z (Twist.angular new_twist))) = true) /\
  (forall old_ly old_lz old_ax old_ay new_ly new_lz new_ax new_ay,
     hasIncreasedAbsVelocity
       (Twist.mk (Vector3.mk (Vector3.x (Twist.linear old_twist)) old_ly old_lz)
                 (Vector3.mk old_ax old_ay (Vector3.z (Twist.angular old_twist))))
       (Twist.mk (Vector3.mk (Vector3.x (Twist.linear new_twist)) new_ly new_lz)
                 (Vector3.mk new_ax new_ay (Vector3.z (Twist.angular new_twist))))
     = hasIncreasedAbsVelocity old_twist new_twist).
Proof.
  unfold hasIncreasedAbsVelocity. split.
  - apply orb_true_iff.
  - reflexivity.
Qed.

Example hasIncreasedAbsVelocity_faster_backwards :
  hasIncreasedAbsVelocity (twist_of 1 0) (twist_of (-2) 0) = true.
Proof. reflexivity. Qed.

Example hasIncreasedAbsVelocity_slower :
  hasIncreasedAbsVelocity (twist_of (-2) 0.5) (twist_of 1 (-0.5)) = false.
Proof. reflexivity. Qed.

Example hasIncreasedAbsVelocity_ignores_linear_y :
  hasIncreasedAbsVelocity
    (Twist.mk (Vector3.mk 1 0 0) Vector3.zero)
    (Twist.mk (Vector3.mk 1 9 9) (Vector3.mk 9 9 0)) = false.
Proof. reflexivity. Qed.

(** The same reading on the IEEE 754 values; a NaN never exceeds and is
    never exceeded. *)
Lemma hasIncreasedAbsVelocity_ieee (old_twist new_twist : Twist.t) :
  hasIncreasedAbsVelocity old_twist new_twist = true <->
  abs_exceeds (Vector3.x (Twist.linear old_twist))
              (Vector3.x (Twist.linear new_twist)) \/
  abs_exceeds (Vector3.z (Twist.angular old_twist))
              (Vector3.z (Twist.angular new_twist)).
Proof.
  unfold hasIncreasedAbsVelocity, abs_exceeds.
  rewrite orb_true_iff, !ltb_spec, !abs_spec. reflexivity.
Qed.

Example hasIncreasedAbsVelocity_nan :
  hasIncreasedAbsVelocity (twist_of 1 0) (twist_of nan 0) = false /\
  hasIncreasedAbsVelocity (twist_of nan 0) (twist_of 1 0) = false.
Proof. split; reflexivity. Qed.

(** ** Further properties of the code *)

(** *** publishTwist *)

(** X1. When the publisher held by [cmd_pub_] is not the one of the output
    mode (as before [init]), [publishTwist] puts nothing on the output: it
    logs the one fatal report of the mode, returns normally and leaves the
    node unchanged, so the command is lost. *)
Theorem publishTwist_mismatch_drops (mux : TwistMux) (msg : Message) :
  ~ publisher_matches mux ->
  publishTwist msg mux =
    (Ok tt, mux, [publisher_report (output_stamped mux)]) /\
  published (trace_of (publishTwist msg mux)) = [].
Proof.
  unfold publisher_matches, publishTwist, bind, this. intros Hno.
  destruct (output_stamped mux), (cmd_pub_ mux); try (now destruct Hno);
    split; reflexivity.
Qed.

Lemma publishTwist_mismatch_drops_witness :
  let mux := TwistMux_new scenario_parameters 0 in
  publishTwist drive_command mux =
    (Ok tt, mux, [publisher_report (output_stamped mux)]) /\
  published (trace_of (publishTwist drive_command mux)) = [].
Proof.
  apply (publishTwist_mismatch_drops (TwistMux_new scenario_parameters 0)
           drive_command).
  discriminate.
Defined.

(** X2. With bare output and its publisher, what goes out is the velocity
    payload alone: the header of a stamped command is dropped, so two
    commands carrying the same velocities go out as the same message. *)
Theorem bare_output_is_payload (mux : TwistMux) (msg msg' : Message) :
  output_stamped mux = false ->
  cmd_pub_ mux = TwistPublisher ->
  publishTwist msg mux = (Ok tt, mux, [Published (OutTwist (payload msg))]) /\
  (payload msg = payload msg' ->
   publishTwist msg mux = publishTwist msg' mux).
Proof.
  intros Hout Hpub.
  assert (Hrun : forall m, publishTwist m mux =
                           (Ok tt, mux, [Published (OutTwist (payload m))])).
  { intros m. unfold publishTwist, bind, this. rewrite Hout, Hpub.
    destruct m; reflexivity. }
  split; [apply Hrun|]. intros E. now rewrite !Hrun, E.
Qed.

Lemma bare_output_is_payload_witness :
  let stamped := teleop_command second in
  let bare := TwistMsg (twist_of 2 0) in
  payload stamped = payload bare /\
  publishTwist stamped tie_mux =
    (Ok tt, tie_mux, [Published (OutTwist (payload stamped))]) /\
  (payload stamped = payload bare ->
   publishTwist stamped tie_mux = publishTwist bare tie_mux).
Proof.
  split; [reflexivity|].
  exact (bare_output_is_payload tie_mux (teleop_command second)
           (TwistMsg (twist_of 2 0)) eq_refl eq_refl).
Defined.

(** X3. Wrapping and unwrapping compose to the identity on velocities: the
    stamped record that a stamped-output node publishes for a bare command,
    given to a bare-output node, goes out as the original command. *)
Theorem wrap_then_unwrap (stamped_out bare_out : TwistMux) (m : Twist.t) :
  output_stamped stamped_out = true ->
  cmd_pub_ stamped_out = TwistStampedPublisher ->
  output_stamped bare_out = false ->
  cmd_pub_ bare_out = TwistPublisher ->
  exists wrapped,
    published (trace_of (publishTwist (TwistMsg m) stamped_out)) =
      [OutTwistStamped wrapped] /\
    published (trace_of (publishTwist (TwistStampedMsg wrapped) bare_out)) =
      [OutTwist m].
Proof.
  intros Hs Hsp Hb Hbp. exists (TwistStamped.mk Header.default m).
  unfold publishTwist, bind, this. rewrite Hs, Hsp, Hb, Hbp. split; reflexivity.
Qed.

Lemma wrap_then_unwrap_witness :
  exists wrapped,
    published (trace_of (publishTwist (TwistMsg (twist_of 1 0.5)) stamped_mux)) =
      [OutTwistStamped wrapped] /\
    published (trace_of (publishTwist (TwistStampedMsg wrapped) tie_mux)) =
      [OutTwist (twist_of 1 0.5)].
Proof.
  exact (wrap_then_unwrap stamped_mux tie_mux (twist_of 1 0.5)
           eq_refl eq_refl eq_refl eq_refl).
Defined.

(** *** getLockPriority *)

Lemma max_fold_push (ps : list priority_type) (p a : priority_type) :
  fold_right Z.max (Z.max p a) ps = Z.max a (fold_right Z.max p ps).
Proof.
  induction ps as [|x ps IH]; simpl; [lia|]. rewrite IH. lia.
Qed.

Lemma lock_fold_max (now : Time) (ls : list LockTopicHandle)
    (p0 : priority_type) :
  fold_left (lock_priority_step now) ls p0 =
  fold_right Z.max p0 (locked_priorities now ls).
Proof.
  unfold locked_priorities.
  revert p0; induction ls as [|l ls IH]; intros p0; simpl; [reflexivity|].
  rewrite IH. unfold lock_priority_step.
  destruct (isLocked now l); simpl; [|reflexivity].
  rewrite <- max_fold_push. f_equal.
  destruct (Z.ltb_spec p0 (priority_ l)); lia.
Qed.

Lemma max_from_zero_nonneg (ps : list priority_type) : 0 <= max_from_zero ps.
Proof. induction ps as [|x ps IH]; simpl; lia. Qed.

Lemma max_from_zero_app (ps qs : list priority_type) :
  max_from_zero (ps ++ qs) = Z.max (max_from_zero ps) (max_from_zero qs).
Proof.
  induction ps as [|x ps IH]; simpl.
  - pose proof (max_from_zero_nonneg qs). unfold max_from_zero in *. lia.
  - unfold max_from_zero in *. rewrite IH. lia.
Qed.

Lemma max_from_zero_perm (ps qs : list priority_type) :
  Permutation ps qs -> max_from_zero ps = max_from_zero qs.
Proof.
  unfold max_from_zero.
  induction 1 as [|x ps qs _ IH|x y ps|ps qs rs _ IH1 _ IH2]; simpl;
    [reflexivity|now rewrite IH|lia|congruence].
Qed.

Lemma locked_priorities_perm (now : Time) (ls ls' : list LockTopicHandle) :
  Permutation ls ls' ->
  Permutation (locked_priorities now ls) (locked_priorities now ls').
Proof.
  unfold locked_priorities.
  induction 1 as [|x l l' _ IH|x y l|l l' l'' _ IH1 _ IH2]; simpl.
  - constructor.
  - destruct (isLocked now x); simpl; [now constructor|exact IH].
  - destruct (isLocked now x), (isLocked now y); simpl;
      try apply Permutation_refl. apply perm_swap.
  - now transitivity (map priority_ (filter (isLocked now) l')).
Qed.

Lemma getLockPriority_value (mux : TwistMux) :
  value_of (getLockPriority mux) =
  Ok (max_from_zero (locked_priorities (clock mux) (lock_hs_ mux))).
Proof.
  rewrite getLockPriority_run. unfold lock_priority_of, value_of. cbn [fst].
  now rewrite lock_fold_max.
Qed.

(** X4. Whatever the priorities, negative ones included, [getLockPriority]
    returns the greatest of 0 and the priorities of the locked locks; so it
    never returns a negative value, and a locked lock of priority 0 or less
    weighs nothing. *)
Theorem getLockPriority_closed_form (mux : TwistMux) :
  exists p,
    value_of (getLockPriority mux) = Ok p /\
    p = max_from_zero (locked_priorities (clock mux) (lock_hs_ mux)) /\
    0 <= p.
Proof.
  exists (max_from_zero (locked_priorities (clock mux) (lock_hs_ mux))).
  split; [apply getLockPriority_value|].
  split; [reflexivity|apply max_from_zero_nonneg].
Qed.

(** X5. The order in which the locks were registered does not matter to the
    effective lock priority: two nodes whose lock containers hold the same
    handles in any order, read at the same time, get the same value. *)
Theorem getLockPriority_order_independent (mux mux' : TwistMux) :
  clock mux' = clock mux ->
  Permutation (lock_hs_ mux) (lock_hs_ mux') ->
  value_of (getLockPriority mux') = value_of (getLockPriority mux).
Proof.
  intros Hclock Hperm.
  rewrite !getLockPriority_value, Hclock. f_equal. symmetry.
  apply max_from_zero_perm, locked_priorities_perm, Hperm.
Qed.

Lemma getLockPriority_order_independent_witness :
  value_of (getLockPriority
              (set_lock_hs locked_mux (rev (lock_hs_ locked_mux)))) =
  value_of (getLockPriority locked_mux).
Proof.
  apply (getLockPriority_order_independent locked_mux
           (set_lock_hs locked_mux (rev (lock_hs_ locked_mux)))).
  - reflexivity.
  - apply Permutation_rev.
Defined.

(** X6. The effective lock priority of a container is the greater of the
    effective lock priorities of its parts, so registering further locks
    never lowers it. *)
Theorem getLockPriority_app (mux : TwistMux) (ls ls' : list LockTopicHandle) :
  exists p p',
    value_of (getLockPriority (set_lock_hs mux ls)) = Ok p /\
    value_of (getLockPriority (set_lock_hs mux ls')) = Ok p' /\
    value_of (getLockPriority (set_lock_hs mux (ls ++ ls'))) = Ok (Z.max p p').
Proof.
  exists (max_from_zero (locked_priorities (clock mux) ls)),
         (max_from_zero (locked_priorities (clock mux) ls')).
  rewrite !getLockPriority_value. cbn [set_lock_hs lock_hs_ clock].
  repeat split. f_equal.
  unfold locked_priorities. rewrite filter_app, map_app.
  apply max_from_zero_app.
Qed.

(** *** hasPriority *)

Lemma NoDup_map_same {A B} (f : A -> B) (l : list A) (a b : A) :
  NoDup (map f l) -> In a l -> In b l -> f a = f b -> a = b.
Proof.
  induction l as [|x l IH]; simpl; intros Hnd Ha Hb E; [easy|].
  inversion Hnd as [|? ? Hnotin Hnd']; subst.
  destruct Ha as [->|Ha], Hb as [->|Hb]; trivial.
  - exfalso. apply Hnotin. rewrite E. now apply in_map.
  - exfalso. apply Hnotin. rewrite <- E. now apply in_map.
  - now apply IH.
Qed.

(** The name [hasPriority] ends its loop with is the placeholder or the
    name of an unmasked registered source of positive priority that no
    unmasked source exceeds. *)
Lemma arbitration_of_cases (mux : TwistMux) :
  (arbitration_of mux = (0, "NULL") /\
   forall u, In u (velocity_hs_ mux) ->
             isMasked (clock mux) u (lock_priority_of mux) = false ->
             getPriority u <= 0) \/
  (exists w, In w (velocity_hs_ mux) /\
             isMasked (clock mux) w (lock_priority_of mux) = false /\
             0 < getPriority w /\
             getName w = snd (arbitration_of mux) /\
             forall u, In u (velocity_hs_ mux) ->
                       isMasked (clock mux) u (lock_priority_of mux) = false ->
                       getPriority u <= getPriority w).
Proof.
  unfold arbitration_of.
  pose proof (velocity_fold_spec (clock mux) (lock_priority_of mux)
                (velocity_hs_ mux) 0 "NULL") as (Hge & Hup & Hat).
  destruct Hat as [E|(Hlt & w & Hin & Hunm & Ep & En)].
  - left. split; [exact E|]. intros u Hin Hunm.
    specialize (Hup u Hin Hunm). now rewrite E in Hup.
  - right. exists w. repeat split; trivial; try lia.
    intros u Hin' Hunm'. rewrite Ep. now apply Hup.
Qed.

(** X7. At most one registered source has priority at a call: with distinct
    names, two registered sources for which [hasPriority] returns true are
    the same source. *)
Theorem hasPriority_at_most_one (mux : TwistMux) (s u : velocity_handle_variant) :
  NoDup (map getName (velocity_hs_ mux)) ->
  In s (velocity_hs_ mux) ->
  In u (velocity_hs_ mux) ->
  value_of (hasPriority s mux) = Ok true ->
  value_of (hasPriority u mux) = Ok true ->
  s = u.
Proof.
  intros Hnd Hs Hu. rewrite !hasPriority_run. unfold value_of. cbn [fst].
  intros Es Eu. injection Es as Es. injection Eu as Eu.
  apply String.eqb_eq in Es, Eu.
  apply (NoDup_map_same getName (velocity_hs_ mux)); congruence.
Qed.

Lemma hasPriority_at_most_one_witness :
  let a := velocity_source "topics.a" second 5 (Some second) in
  value_of (hasPriority a tie_mux) = Ok true /\ a = a.
Proof.
  split; [reflexivity|].
  apply (hasPriority_at_most_one tie_mux
           (velocity_source "topics.a" second 5 (Some second))
           (velocity_source "topics.a" second 5 (Some second))).
  - simpl. repeat constructor; simpl; intuition discriminate.
  - now left.
  - now left.
  - reflexivity.
  - reflexivity.
Defined.

(** X8. Some registered source has priority if and only if some registered
    source is unmasked and of positive priority (no source being named by
    the placeholder NULL): unmasked sources of priority 0 or less leave the
    output without a driver. *)
Theorem some_source_has_priority_iff (mux : TwistMux)
    (lock_priority : priority_type) :
  value_of (getLockPriority mux) = Ok lock_priority ->
  Forall (fun v => getName v <> "NULL") (velocity_hs_ mux) ->
  (exists s, In s (velocity_hs_ mux) /\
             value_of (hasPriority s mux) = Ok true) <->
  (exists u, In u (velocity_hs_ mux) /\
             isMasked (clock mux) u lock_priority = false /\
             0 < getPriority u).
Proof.
  intros Hlp Hnames. rewrite getLockPriority_run in Hlp. injection Hlp as <-.
  rewrite Forall_forall in Hnames. split.
  - intros (s & Hin & Hs). rewrite hasPriority_run in Hs.
    unfold value_of in Hs. cbn [fst] in Hs. injection Hs as Hs.
    apply String.eqb_eq in Hs.
    destruct (arbitration_of_cases mux) as [[E _]|(w & Hw & Hunm & Hpos & _)].
    + rewrite E in Hs. now elim (Hnames s Hin).
    + exists w. auto.
  - intros (u & Hin & Hunm & Hpos).
    destruct (arbitration_of_cases mux) as [[_ Hle]|(w & Hw & _ & _ & En & _)].
    + specialize (Hle u Hin Hunm). lia.
    + exists w. split; [exact Hw|]. rewrite hasPriority_run.
      unfold value_of. cbn [fst]. f_equal. now apply String.eqb_eq.
Qed.

Lemma some_source_has_priority_iff_witness :
  (exists s, In s (velocity_hs_ locked_mux) /\
             value_of (hasPriority s locked_mux) = Ok true) <->
  (exists u, In u (velocity_hs_ locked_mux) /\
             isMasked (clock locked_mux) u 10 = false /\
             0 < getPriority u).
Proof.
  apply (some_source_has_priority_iff locked_mux 10).
  - reflexivity.
  - repeat constructor; discriminate.
Defined.

(** X9. A registered source that has priority (names distinct, its own not
    the placeholder NULL) is unmasked, has a positive priority, and no
    unmasked registered source has a greater one. *)
Theorem priority_holder_dominates (mux : TwistMux)
    (lock_priority : priority_type) (s : velocity_handle_variant) :
  value_of (getLockPriority mux) = Ok lock_priority ->
  NoDup (map getName (velocity_hs_ mux)) ->
  In s (velocity_hs_ mux) ->
  getName s <> "NULL" ->
  value_of (hasPriority s mux) = Ok true ->
  isMasked (clock mux) s lock_priority = false /\
  0 < getPriority s /\
  (forall u, In u (velocity_hs_ mux) ->
             isMasked (clock mux) u lock_priority = false ->
             getPriority u <= getPriority s).
Proof.
  intros Hlp Hnd Hin Hnull Hs.
  rewrite getLockPriority_run in Hlp. injection Hlp as <-.
  rewrite hasPriority_run in Hs. unfold value_of in Hs. cbn [fst] in Hs.
  injection Hs as Hs. apply String.eqb_eq in Hs.
  destruct (arbitration_of_cases mux)
    as [[E _]|(w & Hw & Hunm & Hpos & En & Hmax)].
  - rewrite E in Hs. now elim Hnull.
  - assert (w = s) as ->
      by (apply (NoDup_map_same getName (velocity_hs_ mux)); congruence).
    auto.
Qed.

Lemma priority_holder_dominates_witness :
  let teleop := velocity_source "topics.teleop" second 10 (Some second) in
  isMasked (clock locked_mux) teleop 10 = false /\
  0 < getPriority teleop /\
  (forall u, In u (velocity_hs_ locked_mux) ->
             isMasked (clock locked_mux) u 10 = false ->
             getPriority u <= getPriority teleop).
Proof.
  apply (priority_holder_dominates locked_mux 10
           (velocity_source "topics.teleop" second 10 (Some second))).
  - reflexivity.
  - simpl. repeat constructor; simpl; intuition discriminate.
  - right. now left.
  - discriminate.
  - reflexivity.
Defined.

(** X10. A source under a name that is not registered (and is not the
    placeholder NULL) never has priority, whatever the state of the
    registered ones. *)
Theorem unregistered_never_has_priority (mux : TwistMux)
    (s : velocity_handle_variant) :
  ~ In (getName s) (map getName (velocity_hs_ mux)) ->
  getName s <> "NULL" ->
  value_of (hasPriority s mux) = Ok false.
Proof.
  intros Hnotin Hnull. rewrite hasPriority_run. unfold value_of. cbn [fst].
  f_equal. apply String.eqb_neq. intros E.
  destruct (arbitration_of_cases mux) as [[E0 _]|(w & Hw & _ & _ & En & _)].
  - rewrite E0 in E. now elim Hnull.
  - apply Hnotin. rewrite E, <- En. now apply in_map.
Qed.

Lemma unregistered_never_has_priority_witness :
  value_of (hasPriority (velocity_source "topics.joy" second 200 (Some second))
                        tie_mux) = Ok false.
Proof.
  apply (unregistered_never_has_priority tie_mux).
  - simpl. intuition discriminate.
  - discriminate.
Defined.

(** *** getTopicHandles and init *)

Lemma getTopicHandles_unfold (T : handle_kind) (param_name : string) :
  getTopicHandles T param_name =
  (RCLCPP_DEBUG "getTopicHandles: %s" [ArgString param_name];;;
   mux <- this;;
   try_catch_params
     (for_each (list_prefixes (parameters mux) param_name) (register_prefix T))
     (report_and_rethrow param_name))%mux.
Proof. reflexivity. Qed.

Lemma fetch_param_cases {A} (as_T : ParameterValue -> option A)
    (param_name : string) (mux : TwistMux) :
  (exists a, fetch_param as_T param_name mux = (Ok a, mux, [])) \/
  (exists e, fetch_param as_T param_name mux = (Throw e, mux, [])).
Proof.
  unfold fetch_param, bind, this.
  destruct (get_parameter (parameters mux) param_name) as [v|].
  - destruct (as_T v) as [a|]; [left; exists a|right; eexists]; reflexivity.
  - right. eexists. reflexivity.
Qed.

Lemma appended_refl (T : handle_kind) (mux : TwistMux) : appended T [] mux mux.
Proof.
  unfold appended. repeat (split; [reflexivity|]).
  destruct T; (split; [reflexivity|]); exists [];
    now rewrite app_nil_r.
Qed.

Lemma appended_trans (T : handle_kind) (names names' : list string)
    (mux mux1 mux2 : TwistMux) :
  appended T names mux mux1 -> appended T names' mux1 mux2 ->
  appended T (names ++ names') mux mux2.
Proof.
  unfold appended.
  intros (Hp & Hc & Ho & Hpub & Hst & H1) (Hp' & Hc' & Ho' & Hpub' & Hst' & H2).
  repeat (split; [congruence|]).
  destruct T; destruct H1 as (Hother & added & Hadd & Hn);
    destruct H2 as (Hother' & added' & Hadd' & Hn');
    (split; [congruence|]); exists (added ++ added');
    (split; [rewrite Hadd', Hadd; symmetry; apply app_assoc
            |rewrite map_app; f_equal; assumption]).
Qed.

Lemma emplace_back_run (T : handle_kind) (prefix topic : string)
    (timeout : float) (priority : priority_type) (stamped_topic : bool)
    (mux : TwistMux) :
  exists mux',
    emplace_back T prefix topic timeout priority stamped_topic mux =
      (Ok tt, mux', []) /\
    appended T [prefix] mux mux'.
Proof.
  unfold emplace_back, appended.
  destruct T; [destruct stamped_topic|]; eexists; (split; [reflexivity|]);
    cbn; repeat (split; [reflexivity|]); eexists; split; reflexivity.
Qed.

(** One turn of the loop either registers one handle under the prefix or
    throws with the node as it was; it logs at DEBUG level only. *)
Lemma register_prefix_run (T : handle_kind) (prefix : string) (mux : TwistMux) :
  exists r mux' tr,
    register_prefix T prefix mux = (r, mux', tr) /\
    existsb is_fatal tr = false /\ published tr = [] /\
    match r with
    | Ok _ => appended T [prefix] mux mux'
    | Throw _ => mux' = mux
    end.
Proof.
  unfold register_prefix, bind, RCLCPP_DEBUG, emit.
  destruct (fetch_param_cases as_string (prefix ++ ".topic") mux)
    as [[topic ->]|[e ->]]; [|do 3 eexists; repeat split].
  destruct (fetch_param_cases as_double (prefix ++ ".timeout") mux)
    as [[timeout ->]|[e ->]]; [|do 3 eexists; repeat split].
  destruct (fetch_param_cases as_int (prefix ++ ".priority") mux)
    as [[priority ->]|[e ->]]; [|do 3 eexists; repeat split].
  destruct (fetch_param_cases as_bool (prefix ++ ".stamped_topic") mux)
    as [[stamped_topic ->]|[e ->]]; [|do 3 eexists; repeat split].
  destruct (emplace_back_run T prefix topic timeout priority stamped_topic mux)
    as (mux' & -> & Happ).
  do 3 eexists. do 3 (split; [reflexivity|]). exact Happ.
Qed.

(** The loop registers the prefixes in order; when it throws, the prefixes
    before the failing one are registered and the rest are not. *)
Lemma for_each_register_run (T : handle_kind) (prefixes : list string)
    (mux : TwistMux) :
  exists r mux' tr,
    for_each prefixes (register_prefix T) mux = (r, mux', tr) /\
    existsb is_fatal tr = false /\ published tr = [] /\
    match r with
    | Ok _ => appended T prefixes mux mux'
    | Throw _ =>
        exists done failed rest,
          prefixes = done ++ failed :: rest /\ appended T done mux mux'
    end.
Proof.
  revert mux; induction prefixes as [|prefix prefixes IH]; intros mux.
  - exists (Ok tt), mux, []. repeat split. apply appended_refl.
  - cbn [for_each]. unfold bind.
    destruct (register_prefix_run T prefix mux)
      as (r & mux1 & tr1 & -> & Hf1 & Hp1 & Hr).
    destruct r as [[]|e].
    + destruct (IH mux1) as (r2 & mux2 & tr2 & -> & Hf2 & Hp2 & Hr2).
      exists r2, mux2, (tr1 ++ tr2). split; [reflexivity|].
      split; [rewrite existsb_app, Hf1, Hf2; reflexivity|].
      split.
      { clear - Hp1 Hp2. induction tr1 as [|[m|l f a] tr1 IHt]; simpl in *;
          [exact Hp2|discriminate|now apply IHt]. }
      destruct r2 as [[]|e2].
      * exact (appended_trans T [prefix] prefixes mux mux1 mux2 Hr Hr2).
      * destruct Hr2 as (done & failed & rest & -> & Happ).
        exists (prefix :: done), failed, rest. split; [reflexivity|].
        exact (appended_trans T [prefix] done mux mux1 mux2 Hr Happ).
    + subst mux1. exists (Throw e), mux, tr1. repeat split; trivial.
      exists [], prefix, prefixes. split; [reflexivity|apply appended_refl].
Qed.

Lemma published_app (tr tr' : list event) :
  published (tr ++ tr') = published tr ++ published tr'.
Proof.
  induction tr as [|[m|l f a] tr IH]; simpl; [reflexivity| |exact IH].
  now rewrite IH.
Qed.

Lemma getTopicHandles_run (T : handle_kind) (param_name : string)
    (mux : TwistMux) :
  exists r mux' tr,
    getTopicHandles T param_name mux = (r, mux', tr) /\
    published tr = [] /\
    match r with
    | Ok _ =>
        appended T (list_prefixes (parameters mux) param_name) mux mux' /\
        existsb is_fatal tr = false
    | Throw e =>
        (exists done failed rest,
           list_prefixes (parameters mux) param_name = done ++ failed :: rest /\
           appended T done mux mux') /\
        match e with
        | ParamsHelperException what =>
            exists tr0, tr = tr0 ++ [parse_report param_name what] /\
                        existsb is_fatal tr0 = false
        | _ => existsb is_fatal tr = false
        end
    end.
Proof.
  rewrite getTopicHandles_unfold.
  unfold bind, RCLCPP_DEBUG, emit, this, try_catch_params.
  destruct (for_each_register_run T (list_prefixes (parameters mux) param_name)
              mux) as (r & mux' & tr & -> & Hf & Hp & Hr).
  destruct r as [[]|[what|param|name|name]]; cbn;
    do 3 eexists; (split; [reflexivity|]); cbn [published existsb is_fatal orb].
  - rewrite Hp, Hf. auto.
  - rewrite published_app, Hp.
    split; [reflexivity|]. split; [exact Hr|].
    exists (Logged DEBUG "getTopicHandles: %s" [ArgString param_name] :: tr).
    split; [reflexivity|exact Hf].
  - rewrite Hp, Hf. auto.
  - rewrite Hp, Hf. auto.
  - rewrite Hp, Hf. auto.
Qed.


(** X12. [getTopicHandles] logs a fatal report exactly when it throws a
    [ParamsHelperException]: the exception is never swallowed, and the
    report, the last thing logged, names the parameter group and carries
    the exception's text. *)
Theorem getTopicHandles_fatal_iff_params_exception (T : handle_kind)
    (param_name : string) (mux : TwistMux) :
  let r := getTopicHandles T param_name mux in
  (existsb is_fatal (trace_of r) = true <->
   exists what, value_of r = Throw (ParamsHelperException what)) /\
  (forall what,
     value_of r = Throw (ParamsHelperException what) ->
     exists tr0, trace_of r = tr0 ++ [parse_report param_name what] /\
                 existsb is_fatal tr0 = false).
Proof.
  cbv zeta.
  destruct (getTopicHandles_run T param_name mux)
    as (r & mux' & tr & -> & Hp & Hr).
  unfold trace_of, value_of. cbn [fst snd]. split.
  - destruct r as [[]|[what|param|name|name]].
    + destruct Hr as [_ ->]. split; [discriminate|intros [w E]; discriminate].
    + destruct Hr as [_ (tr0 & -> & Hf)]. split; [eauto|intros _].
      rewrite existsb_app. simpl. apply orb_true_r.
    + destruct Hr as [_ ->]. split; [discriminate|intros [w E]; discriminate].
    + destruct Hr as [_ ->]. split; [discriminate|intros [w E]; discriminate].
    + destruct Hr as [_ ->]. split; [discriminate|intros [w E]; discriminate].
  - intros what E. subst r. destruct Hr as [_ Hr]. exact Hr.
Qed.





(** *** updateDiagnostics *)

(** X15. A diagnostics tick writes into the status the value that
    [getLockPriority] returns at that time and touches nothing else, so
    that an arbitration made right after it uses the very priority the
    status shows; it publishes nothing, and a second tick at the same time
    changes nothing more. *)
Theorem updateDiagnostics_status_in_sync (mux : TwistMux) :
  exists p,
    value_of (getLockPriority mux) = Ok p /\
    updateDiagnostics mux =
      (Ok tt, set_status_priority mux (Some p), [priority_log p]) /\
    value_of (getLockPriority (state_of (updateDiagnostics mux))) = Ok p /\
    state_of (updateDiagnostics (state_of (updateDiagnostics mux))) =
      state_of (updateDiagnostics mux).
Proof.
  exists (lock_priority_of mux).
  assert (E : updateDiagnostics mux =
              (Ok tt, set_status_priority mux (Some (lock_priority_of mux)),
               [priority_log (lock_priority_of mux)])).
  { unfold updateDiagnostics, bind. now rewrite getLockPriority_run. }
  rewrite E. unfold state_of. cbn [fst snd].
  repeat split.
Qed.

(** *** hasIncreasedAbsVelocity *)

Lemma SFltb_abs_irrefl (s : spec_float) : SFltb (SFabs s) (SFabs s) = false.
Proof.
  destruct s as [z|i| |s m e]; try reflexivity.
  unfold SFltb, SFabs, SFcompare.
  now rewrite Z.compare_refl, Pos.compare_cont_refl.
Qed.

Lemma SFabs_opp (s : spec_float) : SFabs (SFopp s) = SFabs s.
Proof. destruct s; reflexivity. Qed.

Lemma abs_opp_same (a : float) :
  Prim2SF (PrimFloat.abs (- a)) = Prim2SF (PrimFloat.abs a).
Proof. now rewrite !abs_spec, opp_spec, SFabs_opp. Qed.

(** X16. No twist has increased velocity with respect to itself, not-a-number
    components included. *)
Theorem hasIncreasedAbsVelocity_irreflexive (t : Twist.t) :
  hasIncreasedAbsVelocity t t = false.
Proof.
  unfold hasIncreasedAbsVelocity.
  now rewrite !ltb_spec, !abs_spec, !SFltb_abs_irrefl.
Qed.

(** X17. Only magnitudes count: reversing the direction of either twist
    (negating its linear.x and angular.z) does not change the answer. *)
Theorem hasIncreasedAbsVelocity_ignores_direction (old_twist new_twist : Twist.t) :
  hasIncreasedAbsVelocity (reversed old_twist) new_twist =
    hasIncreasedAbsVelocity old_twist new_twist /\
  hasIncreasedAbsVelocity old_twist (reversed new_twist) =
    hasIncreasedAbsVelocity old_twist new_twist.
Proof.
  unfold hasIncreasedAbsVelocity, reversed. cbn [Twist.linear Twist.angular
    Vector3.x Vector3.z].
  rewrite !ltb_spec, !abs_opp_same. split; reflexivity.
Qed.

(** X18. A command whose linear.x and angular.z are both zero is never an
    increase, whatever the previous twist and the other components. *)
Theorem hasIncreasedAbsVelocity_stop_never_increases (old_twist : Twist.t)
    (ly lz ax ay : float) :
  hasIncreasedAbsVelocity old_twist
    (Twist.mk (Vector3.mk 0 ly lz) (Vector3.mk ax ay 0)) = false.
Proof.
  unfold hasIncreasedAbsVelocity. cbn [Twist.linear Twist.angular
    Vector3.x Vector3.z].
  rewrite !ltb_spec, !abs_spec.
  change (Prim2SF 0) with (S754_zero false).
  destruct (Prim2SF (Vector3.x (Twist.linear old_twist)));
    destruct (Prim2SF (Vector3.z (Twist.angular old_twist))); reflexivity.
Qed.
